(** * Nano Banana Product Placer: the generation client and the uploader

    A shallow embedding of [services/geminiService.ts] (the generation
    client), [components/ImageUploader.tsx] (the uploader) and the state
    handling of [App.tsx] (the page that owns both), with the properties of
    their specification proved over it.

    JavaScript strings are sequences of code units.  The embedding uses
    [string], whose characters are the code units below 256; every
    delimiter the code inspects ([","], [":"], [";"], white space, line
    terminators) lies in that range. *)

From Stdlib Require Import String Ascii List Bool Arith Lia.
From stdpp Require Import base option list strings gmap.

Local Open Scope string_scope.

(** ** JavaScript values the code relies on *)

Module Js.

(** Truthiness of [string | undefined]: [undefined] and the empty string
    are falsy. *)
Definition truthy (v : option string) : bool :=
  match v with
  | None => false
  | Some EmptyString => false
  | Some (String _ _) => true
  end.

(** [s.split(sep)] for a one-character separator: never the empty array;
    the empty string splits into one empty piece. *)
Fixpoint split (sep : ascii) (s : string) : list string :=
  match s with
  | EmptyString => [EmptyString]
  | String c rest =>
      if Ascii.eqb c sep then EmptyString :: split sep rest
      else match split sep rest with
           | piece :: pieces => String c piece :: pieces
           | [] => [String c EmptyString]
           end
  end.

(** Line terminators: the characters the regular-expression dot does not
    match (LF and CR among the code units below 256). *)
Definition isLineTerminator (c : ascii) : bool :=
  Ascii.eqb c "010" || Ascii.eqb c "013".

(** White space removed by [trim]: TAB, LF, VT, FF, CR, SPACE, NBSP. *)
Definition isWhiteSpace (c : ascii) : bool :=
  Ascii.eqb c "009" || Ascii.eqb c "010" || Ascii.eqb c "011"
  || Ascii.eqb c "012" || Ascii.eqb c "013" || Ascii.eqb c " "
  || Ascii.eqb c "160".

Fixpoint trimStart (s : string) : string :=
  match s with
  | EmptyString => EmptyString
  | String c rest => if isWhiteSpace c then trimStart rest else s
  end.

(** Drops trailing white space: a character is kept when it is not white
    space or when something survives after it. *)
Fixpoint trimEnd (s : string) : string :=
  match s with
  | EmptyString => EmptyString
  | String c rest =>
      match trimEnd rest with
      | EmptyString => if isWhiteSpace c then EmptyString else String c EmptyString
      | kept => String c kept
      end
  end.

Definition trim (s : string) : string := trimEnd (trimStart s).

(** [s.startsWith(p)] *)
Definition startsWith (p s : string) : bool := String.prefix p s.

(** The needle occurs in the hay as it is (what [hay.includes(needle)]
    tests). *)
Definition includes (needle hay : string) : Prop :=
  exists before after, hay = before ++ needle ++ after.

(** What a [throw] carries: an instance of [Error] with its message, or
    any other value. *)
Inductive Thrown : Type :=
| ErrorObj (message : string)
| OtherValue (shown : string).

(** A settled promise, or the completion of a synchronous call. *)
Inductive Outcome (A : Type) : Type :=
| Resolved (a : A)
| Rejected (e : Thrown).
Arguments Resolved {A} a.
Arguments Rejected {A} e.

End Js.

(** ** The regular expression [/:(.*?);/] *)

Module MimeRegex.
Import Js.

(** [(.*?);] anchored at the start of [s]: the lazy star takes the fewest
    characters, so the capture ends at the first [";"]; the dot refuses a
    line terminator, and then no longer capture can match either. *)
Fixpoint lazyDotsThenSemicolon (s : string) : option string :=
  match s with
  | EmptyString => None
  | String c rest =>
      if Ascii.eqb c ";" then Some EmptyString
      else if isLineTerminator c then None
      else String c <$> lazyDotsThenSemicolon rest
  end.

(** [s.match(/:(.*?);/)?.[1]]: the match attempts start at each index from
    the left; the first start that succeeds gives capture group 1. *)
Fixpoint matchGroup1 (s : string) : option string :=
  match s with
  | EmptyString => None
  | String c rest =>
      if Ascii.eqb c ":" then
        match lazyDotsThenSemicolon rest with
        | Some captured => Some captured
        | None => matchGroup1 rest
        end
      else matchGroup1 rest
  end.

End MimeRegex.

(** ** The generative-model SDK: the shapes the client reads and writes *)

Module Blob.
Record t : Type := mk { data : option string; mimeType : option string }.
End Blob.

Module Part.
Record t : Type := mk { inlineData : option Blob.t; text : option string }.
End Part.

Module Content.
Record t : Type := mk { parts : option (list Part.t) }.
End Content.

Module Candidate.
Record t : Type := mk { content : option Content.t }.
End Candidate.

Module Response.
(** [text] is the top-level convenience text of the response. *)
Record t : Type := mk { candidates : option (list Candidate.t); text : option string }.
End Response.

Inductive Modality : Type := MODALITY_UNSPECIFIED | TEXT | IMAGE | AUDIO.

Module Request.
Record config_t : Type := mkConfig { responseModalities : list Modality }.
Record t : Type := mk { model : string; contents : Content.t; config : config_t }.
End Request.

(** The client object [new GoogleGenAI({ apiKey })]. *)
Record GoogleGenAI : Type := { apiKey : string }.

(** ** Files and encoded images *)

Module File.
(** A browser [File]: its name, its declared MIME type and its bytes. *)
Record t : Type := mk { name : string; type : string; bytes : list Byte.byte }.
End File.

Record ImageFile : Type := { file : File.t; base64Url : string }.

(** An [ImageFile] as it exists at run time where the uploader builds it:
    the cast [reader.result as string] lets the [null] of a failed read
    through, so its data URL may be [null] ([None]). *)
Module Loaded.
Record t : Type := mk { file : File.t; base64Url : option string }.
End Loaded.

(** ** Asynchronous computations of the generation client

    The client awaits one kind of remote call and writes to the console;
    a computation is a tree of these interactions ending in a settled
    outcome. *)

Inductive Async (A : Type) : Type :=
| Done (o : Js.Outcome A)
| AwaitGenerateContent (ai : GoogleGenAI) (req : Request.t)
    (k : Js.Outcome Response.t -> Async A)
| ConsoleError (label : string) (v : Js.Thrown) (k : Async A).
Arguments Done {A} o.
Arguments AwaitGenerateContent {A} ai req k.
Arguments ConsoleError {A} label v k.

Module AsyncOps.
Import Js.

Definition ret {A} (a : A) : Async A := Done (Resolved a).
Definition throw {A} (e : Thrown) : Async A := Done (Rejected e).

(** A synchronous call inside the computation: its exception propagates. *)
Definition sync {A} (o : Outcome A) : Async A := Done o.

Fixpoint bind {A B} (m : Async A) (f : A -> Async B) : Async B :=
  match m with
  | Done (Resolved a) => f a
  | Done (Rejected e) => Done (Rejected e)
  | AwaitGenerateContent ai req k =>
      AwaitGenerateContent ai req (fun o => bind (k o) f)
  | ConsoleError label v k => ConsoleError label v (bind k f)
  end.

(** [try { m } catch (error) { handler error }] *)
Fixpoint tryCatch {A} (m : Async A) (handler : Thrown -> Async A) : Async A :=
  match m with
  | Done (Resolved a) => Done (Resolved a)
  | Done (Rejected e) => handler e
  | AwaitGenerateContent ai req k =>
      AwaitGenerateContent ai req (fun o => tryCatch (k o) handler)
  | ConsoleError label v k => ConsoleError label v (tryCatch k handler)
  end.

(** [await ai.models.generateContent(req)] *)
Definition generateContent (ai : GoogleGenAI) (req : Request.t) : Async Response.t :=
  AwaitGenerateContent ai req Done.

#[export] Instance Async_ret : MRet Async := @ret.
#[export] Instance Async_bind : MBind Async := fun A B f m => bind m f.

(** What an observer of one run sees, in order. *)
Inductive Event : Type :=
| NetworkCall (ai : GoogleGenAI) (req : Request.t)
| ConsoleErrorLine (label : string) (v : Thrown).

(** Runs a computation against a remote endpoint, which settles each call
    with a response or a rejection; returns the outcome and the events. *)
Fixpoint run {A} (remote : GoogleGenAI -> Request.t -> Outcome Response.t)
    (m : Async A) : Outcome A * list Event :=
  match m with
  | Done o => (o, [])
  | AwaitGenerateContent ai req k =>
      let '(o, events) := run remote (k (remote ai req)) in
      (o, NetworkCall ai req :: events)
  | ConsoleError label v k =>
      let '(o, events) := run remote k in
      (o, ConsoleErrorLine label v :: events)
  end.

Definition isNetworkCall (ev : Event) : bool :=
  match ev with NetworkCall _ _ => true | ConsoleErrorLine _ _ => false end.

Definition networkCalls (events : list Event) : list Event :=
  filter (fun ev => isNetworkCall ev = true) events.

End AsyncOps.

(** ** services/geminiService.ts *)

Module GeminiService.
Import Js AsyncOps.

(** Module initialisation: reads [process.env.API_KEY], throws when it is
    falsy, and otherwise builds the client the exported function closes
    over. *)
Definition init (env : gmap string string) : Outcome GoogleGenAI :=
  let API_KEY := env !! "API_KEY" in
  match API_KEY with
  | Some (String c rest) => Resolved {| apiKey := String c rest |}
  | _ => Rejected (ErrorObj "API_KEY environment variable not set")
  end.

(** The object literal [{ inlineData: { data, mimeType } }]. *)
Definition imagePart (mimeType data : option string) : Part.t :=
  {| Part.inlineData := Some {| Blob.data := data; Blob.mimeType := mimeType |};
     Part.text := None |}.

Definition convertDataUrlToGeminiPart (dataUrl : string) : Outcome Part.t :=
  let parts := split "," dataUrl in
  match parts !! 0%nat with
  | None => Rejected (ErrorObj "Cannot read properties of undefined (reading 'match')")
  | Some header =>
      let mimeType := MimeRegex.matchGroup1 header in
      let base64Data := parts !! 1%nat in
      if negb (truthy mimeType) || negb (truthy base64Data) then
        Rejected (ErrorObj "Invalid data URL")
      else
        Resolved (imagePart mimeType base64Data)
  end.

Definition instruction : string :=
  "Analyze the first image (the character) and the second image (the product). Generate a new image where the character is naturally using or interacting with the product. The final output image MUST maintain the exact same aspect ratio and dimensions as the first (character) image. The art style should also match the character image.".

Definition textPart : Part.t :=
  {| Part.inlineData := None; Part.text := Some instruction |}.

(** [response.candidates?.[0]?.content?.parts || []] *)
Definition responseParts (response : Response.t) : list Part.t :=
  default []
    (candidates ← Response.candidates response;
     first ← candidates !! 0%nat;
     content ← Candidate.content first;
     Content.parts content).

(** [part.inlineData?.data] *)
Definition inlineDataOf (part : Part.t) : option string :=
  Part.inlineData part ≫= Blob.data.

(** The [for ... of] loop with its early [return]: [Some d] when the loop
    returns [d], [None] when it runs to the end. *)
Fixpoint firstInlineData (parts : list Part.t) : option string :=
  match parts with
  | [] => None
  | part :: rest =>
      if truthy (inlineDataOf part) then inlineDataOf part
      else firstInlineData rest
  end.

(** The argument of [ai.models.generateContent]. *)
Definition request (characterPart productPart : Part.t) : Request.t :=
  {| Request.model := "gemini-2.5-flash-image-preview";
     Request.contents :=
       {| Content.parts := Some [characterPart; productPart; textPart] |};
     Request.config := {| Request.responseModalities := [IMAGE; TEXT] |} |}.

(** The [catch] block. *)
Definition onCaught (error : Thrown) : Async (option string) :=
  ConsoleError "Error calling Gemini API:" error
    (match error with
     | ErrorObj message => throw (ErrorObj ("Failed to generate image: " ++ message))
     | OtherValue _ => throw (ErrorObj "An unknown error occurred during image generation.")
     end).

(** The console line the [catch] block leaves behind. *)
Definition caughtLine (error : Thrown) : Event :=
  ConsoleErrorLine "Error calling Gemini API:" error.

(** The exported function; [None] is JavaScript's [null]. *)
Definition generateProductPlacementImage (ai : GoogleGenAI)
    (characterImage productImage : ImageFile) : Async (option string) :=
  tryCatch
    (characterPart ← sync (convertDataUrlToGeminiPart (base64Url characterImage));
     productPart ← sync (convertDataUrlToGeminiPart (base64Url productImage));
     response ← generateContent ai (request characterPart productPart);
     match firstInlineData (responseParts response) with
     | Some data => ret (Some data)
     | None =>
         let textResponse := trim <$> Response.text response in
         match textResponse with
         | Some (String c rest) => throw (ErrorObj ("Model response: " ++ String c rest))
         | _ => ret None
         end
     end)
    onCaught.

(** What importing the module gives: the exported function, if
    initialisation did not throw. *)
Definition load (env : gmap string string)
    : Outcome (ImageFile -> ImageFile -> Async (option string)) :=
  match init env with
  | Resolved ai => Resolved (generateProductPlacementImage ai)
  | Rejected e => Rejected e
  end.

End GeminiService.

(** ** The service on the values its caller really passes

    The page passes what the uploaders delivered, and there a data URL may
    be [null].  The functions are those of [GeminiService], read without the
    type annotation [dataUrl: string]. *)

Module AtRuntime.
Import Js AsyncOps.

(** [dataUrl.split(',')] on [null] throws a [TypeError] (the message is the
    one V8 gives; nothing below depends on its wording); on a string the
    function is [GeminiService.convertDataUrlToGeminiPart]. *)
Definition convertDataUrlToGeminiPart (dataUrl : option string) : Outcome Part.t :=
  match dataUrl with
  | None => Rejected (ErrorObj "Cannot read properties of null (reading 'split')")
  | Some url => GeminiService.convertDataUrlToGeminiPart url
  end.

Definition generateProductPlacementImage (ai : GoogleGenAI)
    (characterImage productImage : Loaded.t) : Async (option string) :=
  tryCatch
    (characterPart ← sync (convertDataUrlToGeminiPart (Loaded.base64Url characterImage));
     productPart ← sync (convertDataUrlToGeminiPart (Loaded.base64Url productImage));
     response ← generateContent ai (GeminiService.request characterPart productPart);
     match GeminiService.firstInlineData (GeminiService.responseParts response) with
     | Some data => ret (Some data)
     | None =>
         let textResponse := trim <$> Response.text response in
         match textResponse with
         | Some (String c rest) => throw (ErrorObj ("Model response: " ++ String c rest))
         | _ => ret None
         end
     end)
    GeminiService.onCaught.

End AtRuntime.

(** ** Sample inputs *)

Module Samples.
Import Js.

Definition ai : GoogleGenAI := {| apiKey := "k" |}.

Definition png : File.t :=
  {| File.name := "hero.png"; File.type := "image/png";
     File.bytes := [Byte.x89; Byte.x50; Byte.x4e; Byte.x47] |}.

Definition character : ImageFile :=
  {| file := png; base64Url := "data:image/png;base64,iVBORw==" |}.

Definition product : ImageFile :=
  {| file := {| File.name := "mug.jpg"; File.type := "image/jpeg";
                File.bytes := [Byte.xff; Byte.xd8; Byte.xff] |};
     base64Url := "data:image/jpeg;base64,/9j/" |}.

(** A character image whose data URL has no comma. *)
Definition commaless : ImageFile :=
  {| file := png; base64Url := "data:image/png;base64" |}.

Definition characterPart : Part.t :=
  GeminiService.imagePart (Some "image/png") (Some "iVBORw==").
Definition productPart : Part.t :=
  GeminiService.imagePart (Some "image/jpeg") (Some "/9j/").

Definition respond (parts : list Part.t) (text : option string) : Response.t :=
  {| Response.candidates :=
       Some [ {| Candidate.content := Some {| Content.parts := Some parts |} |} ];
     Response.text := text |}.

(** An endpoint that answers every call with the same outcome. *)
Definition always (o : Outcome Response.t) (_ : GoogleGenAI) (_ : Request.t)
    : Outcome Response.t := o.

Definition textOnly (t : string) : Part.t :=
  {| Part.inlineData := None; Part.text := Some t |}.

Definition twoImages : Response.t :=
  respond [ textOnly "Here you go";
            GeminiService.imagePart (Some "image/png") (Some "AAAA");
            GeminiService.imagePart (Some "image/png") (Some "BBBB") ] None.

Definition refusal : Response.t :=
  respond [ textOnly "Cannot comply" ] (Some "  Cannot comply ").

Definition silent : Response.t := respond [] None.


End Samples.

(** ** Base64, as the browser encodes file contents (RFC 4648, padded) *)

Module Base64.

Definition alphabet : string :=
  "ABCDEFGHIJKLMNOPQRSTUVWXYZabcdefghijklmnopqrstuvwxyz0123456789+/".

Definition pad : ascii := "="%char.

(** The character of a 6-bit value. *)
Definition charOf (n : N) : ascii :=
  default pad (String.get (N.to_nat n) alphabet).

Fixpoint indexIn (c : ascii) (s : string) : option N :=
  match s with
  | EmptyString => None
  | String d rest => if Ascii.eqb c d then Some 0%N else N.succ <$> indexIn c rest
  end.

(** The 6-bit value of an alphabet character. *)
Definition valueOf (c : ascii) : option N := indexIn c alphabet.

Definition encode1 (a : Byte.byte) : string :=
  let x := Byte.to_N a in
  String (charOf (x / 4)) (String (charOf ((x mod 4) * 16))
    (String pad (String pad EmptyString))).

Definition encode2 (a b : Byte.byte) : string :=
  let x := Byte.to_N a in
  let y := Byte.to_N b in
  String (charOf (x / 4)) (String (charOf ((x mod 4) * 16 + y / 16))
    (String (charOf ((y mod 16) * 4)) (String pad EmptyString))).

Definition encode3 (a b c : Byte.byte) (tail : string) : string :=
  let x := Byte.to_N a in
  let y := Byte.to_N b in
  let z := Byte.to_N c in
  String (charOf (x / 4)) (String (charOf ((x mod 4) * 16 + y / 16))
    (String (charOf ((y mod 16) * 4 + z / 64)) (String (charOf (z mod 64)) tail))).

Fixpoint encode (bs : list Byte.byte) : string :=
  match bs with
  | [] => EmptyString
  | [a] => encode1 a
  | [a; b] => encode2 a b
  | a :: b :: c :: rest => encode3 a b c (encode rest)
  end.

Fixpoint decode (s : string) : option (list Byte.byte) :=
  match s with
  | EmptyString => Some []
  | String c0 (String c1 (String c2 (String c3 rest))) =>
      if Ascii.eqb c2 pad && Ascii.eqb c3 pad then
        match rest with
        | EmptyString =>
            s0 ← valueOf c0; s1 ← valueOf c1;
            a ← Byte.of_N (s0 * 4 + s1 / 16);
            Some [a]
        | _ => None
        end
      else if Ascii.eqb c3 pad then
        match rest with
        | EmptyString =>
            s0 ← valueOf c0; s1 ← valueOf c1; s2 ← valueOf c2;
            a ← Byte.of_N (s0 * 4 + s1 / 16);
            b ← Byte.of_N ((s1 mod 16) * 16 + s2 / 4);
            Some [a; b]
        | _ => None
        end
      else
        s0 ← valueOf c0; s1 ← valueOf c1; s2 ← valueOf c2; s3 ← valueOf c3;
        a ← Byte.of_N (s0 * 4 + s1 / 16);
        b ← Byte.of_N ((s1 mod 16) * 16 + s2 / 4);
        c ← Byte.of_N ((s2 mod 4) * 64 + s3);
        tail ← decode rest;
        Some (a :: b :: c :: tail)
  | _ => None
  end.

End Base64.

(** ** components/ImageUploader.tsx *)

Module Uploader.
Import Js.

(** The hidden file input: only its [value] matters here. *)
Record HTMLInputElement : Type := { value : string }.

Record MouseEvent : Type :=
  { propagationStopped : bool; defaultPrevented : bool }.

(** The component's state: the [imagePreview] state variable, the element
    [fileInputRef.current] points to once mounted, and the files whose
    [FileReader] has been started and has not yet ended. *)
Record State : Type :=
  { imagePreview : option string;
    fileInputRef : option HTMLInputElement;
    reading : list File.t }.

(** Calls of [onImageUpload], in order; [None] is [null]. *)
Definition Notifications : Type := list (option Loaded.t).

(** Modelled from the spec: [FileReader.readAsDataURL] is the browser's and
    not part of the repository; the spec gives the data URL it produces as
    [data:<mimeType>;base64,<payload>], the payload being the base64
    encoding of the file's bytes. *)
Definition readAsDataURL (f : File.t) : string :=
  "data:" ++ File.type f ++ ";base64," ++ Base64.encode (File.bytes f).

(** [event.target.files?.[0]] *)
Definition firstFile (files : option (list File.t)) : option File.t :=
  fs ← files; fs !! 0%nat.

(** [handleFileChange]: an image-typed file starts a read and changes
    nothing yet; anything else clears the preview and notifies [null]. *)
Definition handleFileChange (files : option (list File.t)) (st : State)
    : State * Notifications :=
  match firstFile files with
  | Some f =>
      if startsWith "image/" (File.type f) then
        ({| imagePreview := imagePreview st;
            fileInputRef := fileInputRef st;
            reading := reading st ++ [f] |}, [])
      else
        ({| imagePreview := None;
            fileInputRef := fileInputRef st;
            reading := reading st |}, [None])
  | None =>
      ({| imagePreview := None;
          fileInputRef := fileInputRef st;
          reading := reading st |}, [None])
  end.

(** [reader.result] when the read has ended: the data URL, or [null] when
    the read failed. *)
Definition readerResult (ok : bool) (f : File.t) : option string :=
  if ok then Some (readAsDataURL f) else None.

(** The [reader.onloadend] callback; it runs when the read ends, whether it
    succeeded or failed, and takes [reader.result] as it is. *)
Definition onloadend (f : File.t) (result : option string) (st : State)
    : State * Notifications :=
  let base64Url := result in
  ({| imagePreview := base64Url;
      fileInputRef := fileInputRef st;
      reading := reading st |},
   [Some {| Loaded.file := f; Loaded.base64Url := base64Url |}]).

(** [handleClear] *)
Definition handleClear (e : MouseEvent) (st : State)
    : State * Notifications * MouseEvent :=
  let e' := {| propagationStopped := true; defaultPrevented := true |} in
  ({| imagePreview := None;
      fileInputRef :=
        match fileInputRef st with
        | Some _ => Some {| value := "" |}
        | None => None
        end;
      reading := reading st |},
   [None], e').

(** The value a browser shows for a chosen file. *)
Definition fakepath (f : File.t) : string := "C:\fakepath\" ++ File.name f.

(** Modelled from the spec: the file-selection widget is the browser's; it
    reports a selection to the component only when the selection changes
    the widget's value, which is why the widget has to be reset for the
    same file to be selected again. *)
Definition changeFires (el : HTMLInputElement) (picked : File.t) : bool :=
  negb (String.eqb (value el) (fakepath picked)).

(** What can happen to a mounted uploader. *)
Inductive Action : Type :=
| Change (files : option (list File.t))
| LoadEnd (i : nat) (ok : bool)
| ClearClick (e : MouseEvent).

(** The widget's value after the user's selection. *)
Definition selected (files : option (list File.t)) : HTMLInputElement :=
  {| value := match firstFile files with
              | Some f => fakepath f
              | None => ""
              end |}.

(** One action on the component; [None] when the action cannot happen in
    that state: a selection needs the mounted widget, only a read that
    was started can end (the [i]-th outstanding one, with success or
    without), and the clear button is only rendered over a preview. *)
Definition step (a : Action) (st : State) : option (State * Notifications) :=
  match a with
  | Change files =>
      match fileInputRef st with
      | Some _ =>
          Some (handleFileChange files
                  {| imagePreview := imagePreview st;
                     fileInputRef := Some (selected files);
                     reading := reading st |})
      | None => None
      end
  | LoadEnd i ok =>
      match reading st !! i with
      | Some f =>
          Some (onloadend f (readerResult ok f)
                  {| imagePreview := imagePreview st;
                     fileInputRef := fileInputRef st;
                     reading := delete i (reading st) |})
      | None => None
      end
  | ClearClick e =>
      if truthy (imagePreview st) then Some (fst (handleClear e st)) else None
  end.

(** The state right after the component mounts. *)
Definition mounted : State :=
  {| imagePreview := None;
     fileInputRef := Some {| value := "" |};
     reading := [] |}.

Inductive Reachable : State -> Prop :=
| reach_mounted : Reachable mounted
| reach_step a st st' ns :
    Reachable st -> step a st = Some (st', ns) -> Reachable st'.

End Uploader.

(** ** The shape of a data URL, in the specification's terms *)

Module DataUrl.

(** Does the character occur in the string? *)
Fixpoint contains (c : ascii) (s : string) : bool :=
  match s with
  | EmptyString => false
  | String d rest => Ascii.eqb d c || contains c rest
  end.

(** The URL carries a MIME-type token: a non-empty text between a [":"]
    and a [";"], ahead of any comma. *)
Definition HasMimeTypeToken (url : string) : Prop :=
  exists pre m post,
    url = pre ++ ":" ++ m ++ ";" ++ post /\ m <> "" /\
    contains "," (pre ++ ":" ++ m) = false.

(** The URL carries a payload: something follows its first comma. *)
Definition HasPayload (url : string) : Prop :=
  exists header payload,
    url = header ++ "," ++ payload /\ payload <> "" /\
    contains "," header = false.

(** The MIME types a data URL header can carry unchanged: none of the
    header's delimiters, no line break. *)
Definition plainToken (m : string) : bool :=
  negb (contains ";" m) && negb (contains "," m)
  && negb (contains "010" m) && negb (contains "013" m).

(** The URL carries the MIME type [m] and the payload [d]: [m] stands
    between a [":"] and a [";"] ahead of the first comma, and [d] is the
    text from the first comma to the next one, or to the end. *)
Definition Carries (url m d : string) : Prop :=
  exists pre post tail,
    url = (pre ++ ":" ++ m ++ ";" ++ post) ++ "," ++ d ++ tail /\
    contains "," (pre ++ ":" ++ m ++ ";" ++ post) = false /\
    contains "," d = false /\
    (tail = "" \/ exists rest, tail = "," ++ rest) /\
    m <> "" /\ d <> "".

(** The rest of [s] after the prefix [p], if [s] starts with [p]. *)
Fixpoint stripPrefix (p s : string) : option string :=
  match p, s with
  | EmptyString, _ => Some s
  | String a p', String b s' => if Ascii.eqb a b then stripPrefix p' s' else None
  | String _ _, EmptyString => None
  end.

(** The decoding the specification describes for a data URL of the MIME
    type [mimeType]: strip the header [data:<mimeType>;base64,] and
    base64-decode the payload.  It fails on a URL that does not start with
    that header, so a result also vouches for the MIME type. *)
Definition decode (mimeType url : string) : option (list Byte.byte) :=
  payload ← stripPrefix ("data:" ++ mimeType ++ ";base64,") url;
  Base64.decode payload.

End DataUrl.

(** ** Sample uploader states *)

Module UploaderSamples.
Import Uploader.

(** The state after [Samples.png] was chosen and its read has ended. *)
Definition previewing : State :=
  {| imagePreview := Some (readAsDataURL Samples.png);
     fileInputRef := Some {| value := fakepath Samples.png |};
     reading := [] |}.

Definition click : MouseEvent :=
  {| propagationStopped := false; defaultPrevented := false |}.

Definition notes : File.t :=
  {| File.name := "notes.txt"; File.type := "text/plain";
     File.bytes := [Byte.x68; Byte.x69] |}.

(** An image-typed file without content. *)
Definition blank : File.t :=
  {| File.name := "blank.png"; File.type := "image/png"; File.bytes := [] |}.

End UploaderSamples.

(** ** App.tsx *)

Module App.
Import Js AsyncOps.

Definition loadingMessages : list string :=
  [ "Warming up the digital canvas...";
    "Asking Nano Banana for inspiration...";
    "Blending pixels and possibilities...";
    "Placing the product in scene...";
    "Almost there, adding the final touches!" ].

(** The component's state variables; [None] is [null], and for
    [loadingMessage] the [undefined] an out-of-range index would give. *)
Record State : Type :=
  { characterImage : option Loaded.t;
    productImage : option Loaded.t;
    generatedImage : option string;
    isLoading : bool;
    error : option string;
    loadingMessage : option string }.

(** The values of the [useState] calls. *)
Definition initial : State :=
  {| characterImage := None; productImage := None; generatedImage := None;
     isLoading := false; error := None;
     loadingMessage := loadingMessages !! 0%nat |}.

Definition setCharacterImage (v : option Loaded.t) (st : State) : State :=
  {| characterImage := v; productImage := productImage st;
     generatedImage := generatedImage st; isLoading := isLoading st;
     error := error st; loadingMessage := loadingMessage st |}.

Definition setProductImage (v : option Loaded.t) (st : State) : State :=
  {| characterImage := characterImage st; productImage := v;
     generatedImage := generatedImage st; isLoading := isLoading st;
     error := error st; loadingMessage := loadingMessage st |}.

Definition setGeneratedImage (v : option string) (st : State) : State :=
  {| characterImage := characterImage st; productImage := productImage st;
     generatedImage := v; isLoading := isLoading st;
     error := error st; loadingMessage := loadingMessage st |}.

Definition setIsLoading (v : bool) (st : State) : State :=
  {| characterImage := characterImage st; productImage := productImage st;
     generatedImage := generatedImage st; isLoading := v;
     error := error st; loadingMessage := loadingMessage st |}.

Definition setError (v : option string) (st : State) : State :=
  {| characterImage := characterImage st; productImage := productImage st;
     generatedImage := generatedImage st; isLoading := isLoading st;
     error := v; loadingMessage := loadingMessage st |}.

Definition setLoadingMessage (v : option string) (st : State) : State :=
  {| characterImage := characterImage st; productImage := productImage st;
     generatedImage := generatedImage st; isLoading := isLoading st;
     error := error st; loadingMessage := v |}.

(** [xs.indexOf(x)], counting from [i]: the first index holding [x], or -1. *)
Fixpoint indexOfFrom (i : Z) (x : string) (xs : list string) : Z :=
  match xs with
  | [] => (-1)%Z
  | y :: rest => if String.eqb y x then i else indexOfFrom (i + 1)%Z x rest
  end.

Definition indexOf (x : option string) (xs : list string) : Z :=
  match x with
  | Some s => indexOfFrom 0%Z s xs
  | None => (-1)%Z
  end.

(** [xs[i]] for an integer index: [undefined] outside the array. *)
Definition at_ (xs : list string) (i : Z) : option string :=
  if (i <? 0)%Z then None else xs !! Z.to_nat i.

(** The updater the interval passes to [setLoadingMessage]; [%] is
    JavaScript's remainder, which truncates. *)
Definition nextLoadingMessage (prev : option string) : option string :=
  let currentIndex := indexOf prev loadingMessages in
  let nextIndex := Z.rem (currentIndex + 1) (Z.of_nat (length loadingMessages)) in
  at_ loadingMessages nextIndex.

(** One firing of the interval the effect keeps while [isLoading]. *)
Definition tick (st : State) : State :=
  setLoadingMessage (nextLoadingMessage (loadingMessage st)) st.

(** [handleGenerate] up to its [await]: the state it leaves, and the call
    it awaits, if it gets that far. *)
Definition handleGenerate (ai : GoogleGenAI) (st : State)
    : State * option (Async (option string)) :=
  match characterImage st, productImage st with
  | Some character, Some product =>
      (setLoadingMessage (loadingMessages !! 0%nat)
         (setGeneratedImage None (setError None (setIsLoading true st))),
       Some (AtRuntime.generateProductPlacementImage ai character product))
  | _, _ =>
      (setError (Some "Please upload both a character and a product image.") st,
       None)
  end.

(** The [catch] block of [handleGenerate]: the message it shows and the
    value it writes to the console. *)
Definition caught (err : Thrown) (st : State) : State * list Thrown :=
  (setError (Some match err with
                  | ErrorObj message => message
                  | OtherValue _ => "An unknown error occurred."
                  end) st,
   [err]).

(** [handleGenerate] from the moment the awaited call settles: the [try]
    body after the [await], the [catch] and the [finally]; with the state
    comes what [console.error] was given. *)
Definition handleGenerateSettled (settled : Outcome (option string)) (st : State)
    : State * list Thrown :=
  let '(st', logged) :=
    match settled with
    | Resolved resultBase64 =>
        match resultBase64 with
        | Some (String c rest) =>
            (setGeneratedImage (Some ("data:image/png;base64," ++ String c rest)) st, [])
        | _ =>
            caught (ErrorObj "The model did not return an image. Please try a different prompt or images.") st
        end
    | Rejected err => caught err st
    end in
  (setIsLoading false st', logged).

(** [canGenerate]; the button is disabled when it is false. *)
Definition canGenerate (st : State) : bool :=
  match characterImage st, productImage st with
  | Some _, Some _ => negb (isLoading st)
  | _, _ => false
  end.

(** The page: the component's state, its two uploaders, and the calls of
    [generateProductPlacementImage] that have not settled. *)
Record Page : Type :=
  { app : State;
    characterUploader : Uploader.State;
    productUploader : Uploader.State;
    pending : list (Async (option string)) }.

Definition opened : Page :=
  {| app := initial;
     characterUploader := Uploader.mounted;
     productUploader := Uploader.mounted;
     pending := [] |}.

(** The owner's callback applied to the uploader's calls, in order. *)
Definition deliver (set : option Loaded.t -> State -> State)
    (calls : Uploader.Notifications) (st : State) : State :=
  foldl (fun acc v => set v acc) st calls.

(** What can happen on the page: something in one of the uploaders, a click
    on the button, the settling of a pending call by the remote endpoint,
    a firing of the interval. *)
Inductive Action : Type :=
| InCharacter (a : Uploader.Action)
| InProduct (a : Uploader.Action)
| ClickGenerate
| Settle (i : nat) (remote : GoogleGenAI -> Request.t -> Outcome Response.t)
| Tick.

(** One action on the page; [None] when it cannot happen: the button is
    disabled unless [canGenerate], only a pending call can settle, and the
    interval exists only while [isLoading]. *)
Definition step (ai : GoogleGenAI) (a : Action) (pg : Page) : option Page :=
  match a with
  | InCharacter ua =>
      '(u, calls) ← Uploader.step ua (characterUploader pg);
      Some {| app := deliver setCharacterImage calls (app pg);
              characterUploader := u;
              productUploader := productUploader pg;
              pending := pending pg |}
  | InProduct ua =>
      '(u, calls) ← Uploader.step ua (productUploader pg);
      Some {| app := deliver setProductImage calls (app pg);
              characterUploader := characterUploader pg;
              productUploader := u;
              pending := pending pg |}
  | ClickGenerate =>
      if canGenerate (app pg) then
        let '(st, awaited) := handleGenerate ai (app pg) in
        Some {| app := st;
                characterUploader := characterUploader pg;
                productUploader := productUploader pg;
                pending := (pending pg ++ option_list awaited)%list |}
      else None
  | Settle i remote =>
      call ← pending pg !! i;
      Some {| app := fst (handleGenerateSettled (fst (run remote call)) (app pg));
              characterUploader := characterUploader pg;
              productUploader := productUploader pg;
              pending := delete i (pending pg) |}
  | Tick =>
      if isLoading (app pg) then
        Some {| app := tick (app pg);
                characterUploader := characterUploader pg;
                productUploader := productUploader pg;
                pending := pending pg |}
      else None
  end.

Inductive Reachable (ai : GoogleGenAI) : Page -> Prop :=
| reach_opened : Reachable ai opened
| reach_step a pg pg' :
    Reachable ai pg -> step ai a pg = Some pg' -> Reachable ai pg'.

(** A sequence of actions, one after the other. *)
Fixpoint play (ai : GoogleGenAI) (actions : list Action) (pg : Page) : option Page :=
  match actions with
  | [] => Some pg
  | a :: rest =>
      match step ai a pg with
      | Some pg' => play ai rest pg'
      | None => None
      end
  end.

End App.

(** ** Sample pages *)

Module AppSamples.
Import App.

Definition jpg : File.t := file Samples.product.

(** What the uploaders deliver for the two sample files. *)
Definition character : Loaded.t :=
  {| Loaded.file := Samples.png;
     Loaded.base64Url := Some (base64Url Samples.character) |}.

Definition product : Loaded.t :=
  {| Loaded.file := jpg; Loaded.base64Url := Some (base64Url Samples.product) |}.

(** Both images chosen and read. *)
Definition upload : list Action :=
  [ InCharacter (Uploader.Change (Some [Samples.png]));
    InCharacter (Uploader.LoadEnd 0 true);
    InProduct (Uploader.Change (Some [jpg]));
    InProduct (Uploader.LoadEnd 0 true) ].

Definition ready : Page :=
  {| app := setProductImage (Some product) (setCharacterImage (Some character) initial);
     characterUploader :=
       {| Uploader.imagePreview := Some (base64Url Samples.character);
          Uploader.fileInputRef := Some {| Uploader.value := Uploader.fakepath Samples.png |};
          Uploader.reading := [] |};
     productUploader :=
       {| Uploader.imagePreview := Some (base64Url Samples.product);
          Uploader.fileInputRef := Some {| Uploader.value := Uploader.fakepath jpg |};
          Uploader.reading := [] |};
     pending := [] |}.

(** The button clicked, the call not yet settled. *)
Definition waiting : Page :=
  {| app := fst (handleGenerate Samples.ai (app ready));
     characterUploader := characterUploader ready;
     productUploader := productUploader ready;
     pending := [AtRuntime.generateProductPlacementImage Samples.ai character product] |}.

(** The call settled with an image. *)
Definition shown : Page :=
  {| app := setIsLoading false
              (setGeneratedImage (Some "data:image/png;base64,AAAA") (app waiting));
     characterUploader := characterUploader ready;
     productUploader := productUploader ready;
     pending := [] |}.

End AppSamples.

(** ** More of what a run shows *)

Module RunView.
Import Js AsyncOps.

Definition isConsoleErrorLine (ev : Event) : bool :=
  match ev with ConsoleErrorLine _ _ => true | NetworkCall _ _ => false end.

Definition consoleLines (events : list Event) : list Event :=
  filter (fun ev => isConsoleErrorLine ev = true) events.

(** The shapes a run of the client can take. *)
Inductive RunShape (ai : GoogleGenAI)
    (remote : GoogleGenAI -> Request.t -> Outcome Response.t)
    : Outcome (option string) * list Event -> Prop :=
| shape_malformed :
    RunShape ai remote
      (Rejected (ErrorObj "Failed to generate image: Invalid data URL"),
       [GeminiService.caughtLine (ErrorObj "Invalid data URL")])
| shape_remote_error req message :
    remote ai req = Rejected (ErrorObj message) ->
    RunShape ai remote
      (Rejected (ErrorObj ("Failed to generate image: " ++ message)),
       [NetworkCall ai req; GeminiService.caughtLine (ErrorObj message)])
| shape_remote_other req shown :
    remote ai req = Rejected (OtherValue shown) ->
    RunShape ai remote
      (Rejected (ErrorObj "An unknown error occurred during image generation."),
       [NetworkCall ai req; GeminiService.caughtLine (OtherValue shown)])
| shape_image req data :
    data <> "" ->
    RunShape ai remote (Resolved (Some data), [NetworkCall ai req])
| shape_refusal req text :
    text <> "" ->
    RunShape ai remote
      (Rejected (ErrorObj ("Failed to generate image: " ++ "Model response: " ++ text)),
       [NetworkCall ai req; GeminiService.caughtLine (ErrorObj ("Model response: " ++ text))])
| shape_null req :
    RunShape ai remote (Resolved None, [NetworkCall ai req]).

End RunView.

(** * Facts about the JavaScript primitives *)

Module JsFacts.
Import Js DataUrl.

Lemma contains_app c a b : contains c (a ++ b) = contains c a || contains c b.
Proof.
  induction a as [|d a IH]; simpl; [reflexivity|].
  rewrite IH. now rewrite orb_assoc.
Qed.

Lemma split_not_nil sep s : split sep s <> [].
Proof.
  destruct s as [|c s]; simpl; [discriminate|].
  destruct (Ascii.eqb c sep); [discriminate|].
  destruct (split sep s); discriminate.
Qed.

(** The first piece has no separator, and either is the whole string or is
    followed by the separator and the string the other pieces come from. *)
Lemma split_first sep s h t :
  split sep s = h :: t ->
  contains sep h = false /\
  ((t = [] /\ s = h) \/
   exists rest, s = h ++ String sep rest /\ t = split sep rest).
Proof.
  revert h t. induction s as [|c s IH]; simpl; intros h t E.
  - inversion E; subst. split; [reflexivity|]. left; split; reflexivity.
  - destruct (Ascii.eqb c sep) eqn:Ec.
    + inversion E; subst. apply Ascii.eqb_eq in Ec; subst c.
      split; [reflexivity|]. right. exists s. split; reflexivity.
    + destruct (split sep s) as [|p ps] eqn:Es.
      * exfalso. eapply split_not_nil; eassumption.
      * injection E as Eh Et. subst h t.
        destruct (IH p ps eq_refl) as [Hc Hs].
        split; [simpl; rewrite Ec; exact Hc|].
        destruct Hs as [[-> ->]|[rest [-> ->]]].
        -- left; split; reflexivity.
        -- right. exists rest. split; reflexivity.
Qed.

Lemma split_no_sep sep s : contains sep s = false -> split sep s = [s].
Proof.
  induction s as [|c s IH]; simpl; intros H; [reflexivity|].
  apply orb_false_iff in H as [Hc Hs].
  rewrite Hc, (IH Hs). reflexivity.
Qed.

Lemma split_app sep h rest :
  contains sep h = false ->
  split sep (h ++ String sep rest) = h :: split sep rest.
Proof.
  induction h as [|c h IH]; simpl; intros H.
  - now rewrite Ascii.eqb_refl.
  - apply orb_false_iff in H as [Hc Hs].
    rewrite Hc, (IH Hs). reflexivity.
Qed.

Lemma truthy_Some s : truthy (Some s) = true <-> s <> "".
Proof. destruct s; simpl; split; congruence. Qed.

Lemma truthy_inv v : truthy v = true -> exists s, v = Some s /\ s <> "".
Proof.
  destruct v as [s|]; [|discriminate]. intros H. exists s.
  split; [reflexivity|]. now apply truthy_Some.
Qed.

End JsFacts.

Module MimeRegexFacts.
Import Js DataUrl MimeRegex JsFacts.

Lemma lazy_sound s m :
  lazyDotsThenSemicolon s = Some m ->
  exists post, s = m ++ ";" ++ post /\ contains ";" m = false.
Proof.
  revert m. induction s as [|c s IH]; simpl; intros m E; [discriminate|].
  destruct (Ascii.eqb c ";") eqn:Ec.
  - inversion E; subst. apply Ascii.eqb_eq in Ec; subst c.
    exists s. split; reflexivity.
  - destruct (isLineTerminator c); [discriminate|].
    destruct (lazyDotsThenSemicolon s) as [m'|]; [|discriminate].
    inversion E; subst. destruct (IH m' eq_refl) as [post [-> Hm]].
    exists post. split; [reflexivity|]. simpl. now rewrite Ec.
Qed.

Lemma lazy_complete m post :
  contains ";" m = false -> contains "010" m = false ->
  contains "013" m = false ->
  lazyDotsThenSemicolon (m ++ ";" ++ post) = Some m.
Proof.
  induction m as [|c m IH]; simpl; intros H1 H2 H3; [reflexivity|].
  apply orb_false_iff in H1 as [-> H1].
  apply orb_false_iff in H2 as [E2 H2].
  apply orb_false_iff in H3 as [E3 H3].
  unfold isLineTerminator. rewrite E2, E3. simpl.
  now rewrite (IH H1 H2 H3).
Qed.

(** A match is an occurrence of [":"], the capture and [";"]. *)
Lemma match_sound s m :
  matchGroup1 s = Some m -> exists pre post, s = pre ++ ":" ++ m ++ ";" ++ post.
Proof.
  induction s as [|c s IH]; simpl; intros E; [discriminate|].
  assert (Hrest : matchGroup1 s = Some m ->
                  exists pre post, String c s = pre ++ ":" ++ m ++ ";" ++ post).
  { intros E'. destruct (IH E') as [pre [post ->]].
    exists (String c pre), post. reflexivity. }
  destruct (Ascii.eqb c ":") eqn:Ec; [|auto].
  destruct (lazyDotsThenSemicolon s) as [m'|] eqn:El; [|auto].
  inversion E; subst. apply Ascii.eqb_eq in Ec; subst c.
  destruct (lazy_sound _ _ El) as [post [-> _]].
  exists "", post. reflexivity.
Qed.

(** The leftmost [":"] that is followed by a plain token and [";"] wins. *)
Lemma match_complete pre m post :
  contains ":" pre = false ->
  contains ";" m = false -> contains "010" m = false ->
  contains "013" m = false ->
  matchGroup1 (pre ++ ":" ++ m ++ ";" ++ post) = Some m.
Proof.
  intros Hp H1 H2 H3. induction pre as [|c pre IH].
  - change (matchGroup1 (String ":" (m ++ ";" ++ post)) = Some m).
    cbn [matchGroup1]. now rewrite Ascii.eqb_refl, lazy_complete.
  - simpl in Hp. apply orb_false_iff in Hp as [Hc Hp].
    change (matchGroup1 (String c (pre ++ ":" ++ m ++ ";" ++ post)) = Some m).
    cbn [matchGroup1]. rewrite Hc. auto.
Qed.

End MimeRegexFacts.

(** * The generation client *)

Module GeminiFacts.
Import Js DataUrl MimeRegex AsyncOps GeminiService JsFacts MimeRegexFacts.

Lemma string_app_assoc (a b c : string) : (a ++ b) ++ c = a ++ b ++ c.
Proof.
  induction a as [|x a IH]; [reflexivity|].
  change (String x ((a ++ b) ++ c) = String x (a ++ b ++ c)). now f_equal.
Qed.

(** Conversion has two outcomes only: the malformed-input error, or an
    image part with a non-empty MIME type and a non-empty payload. *)
Lemma convert_cases url :
  convertDataUrlToGeminiPart url = Rejected (ErrorObj "Invalid data URL") \/
  exists m d, m <> "" /\ d <> "" /\
    convertDataUrlToGeminiPart url = Resolved (imagePart (Some m) (Some d)).
Proof.
  unfold convertDataUrlToGeminiPart.
  destruct (split "," url) as [|h t] eqn:Es.
  { exfalso. eapply split_not_nil; eassumption. }
  change ((h :: t) !! 0%nat) with (Some h).
  change ((h :: t) !! 1%nat) with (t !! 0%nat). cbv beta iota zeta.
  destruct (truthy (matchGroup1 h)) eqn:Tm; [|left; reflexivity].
  destruct (truthy (t !! 0%nat)) eqn:Td; [|left; reflexivity].
  right. apply truthy_inv in Tm as [m [Em Hm]]. apply truthy_inv in Td as [d [Ed Hd]].
  exists m, d. rewrite Em, Ed. repeat split; assumption.
Qed.

(** A URL that converts has both components. *)
Lemma convert_resolved_shape url part :
  convertDataUrlToGeminiPart url = Resolved part ->
  HasMimeTypeToken url /\ HasPayload url.
Proof.
  unfold convertDataUrlToGeminiPart.
  destruct (split "," url) as [|h t] eqn:Es; [discriminate|].
  change ((h :: t) !! 0%nat) with (Some h).
  change ((h :: t) !! 1%nat) with (t !! 0%nat). cbv beta iota zeta.
  destruct (truthy (matchGroup1 h)) eqn:Tm; [|discriminate].
  destruct (truthy (t !! 0%nat)) eqn:Td; [|discriminate].
  intros _. apply truthy_inv in Tm as [m [Em Hm]]. apply truthy_inv in Td as [d [Ed Hd]].
  destruct (split_first _ _ _ _ Es) as [Hc [[-> _]|[rest [-> Et]]]]; [discriminate|].
  destruct (match_sound _ _ Em) as [pre [post Eh]].
  split.
  - exists pre, m, (post ++ "," ++ rest). repeat split; [|assumption|].
    + rewrite Eh. rewrite !string_app_assoc. reflexivity.
    + rewrite Eh in Hc.
      replace (pre ++ ":" ++ m ++ ";" ++ post)
        with ((pre ++ ":" ++ m) ++ ";" ++ post) in Hc
        by (rewrite !string_app_assoc; reflexivity).
      rewrite contains_app in Hc. now apply orb_false_iff in Hc as [Hc _].
  - exists h, rest. repeat split; [|assumption].
    intros ->. subst t. simpl in Ed. inversion Ed; subst. now apply Hd.
Qed.

(** A URL of the expected form converts to its two components. *)
Lemma convert_wellformed pre m mid payload :
  contains ":" pre = false -> contains "," pre = false ->
  m <> "" -> plainToken m = true ->
  contains "," mid = false ->
  payload <> "" -> contains "," payload = false ->
  convertDataUrlToGeminiPart (pre ++ ":" ++ m ++ ";" ++ mid ++ "," ++ payload)
  = Resolved (imagePart (Some m) (Some payload)).
Proof.
  intros Hp1 Hp2 Hm Hplain Hmid Hpay Hpc.
  unfold plainToken in Hplain.
  repeat (apply andb_true_iff in Hplain as [Hplain ?]).
  repeat match goal with H : negb _ = true |- _ => apply negb_true_iff in H end.
  unfold convertDataUrlToGeminiPart.
  replace (pre ++ ":" ++ m ++ ";" ++ mid ++ "," ++ payload)
    with ((pre ++ ":" ++ m ++ ";" ++ mid) ++ String "," payload)
    by (rewrite !string_app_assoc; reflexivity).
  rewrite split_app.
  2:{ rewrite !contains_app. simpl. rewrite Hp2, Hmid.
      repeat match goal with H : contains _ _ = false |- _ => rewrite H end.
      reflexivity. }
  rewrite (split_no_sep _ _ Hpc).
  change ((_ :: [payload]) !! 0%nat) with (Some (pre ++ ":" ++ m ++ ";" ++ mid)).
  change ((_ :: [payload]) !! 1%nat) with (Some payload). cbv beta iota zeta.
  rewrite match_complete by assumption.
  apply truthy_Some in Hm. apply truthy_Some in Hpay.
  rewrite Hm, Hpay. reflexivity.
Qed.

End GeminiFacts.

Module GenerateFacts.
Import Js DataUrl AsyncOps GeminiService JsFacts GeminiFacts.

Lemma no_comma_no_payload url : contains "," url = false -> ~ HasPayload url.
Proof.
  intros H (header & payload & -> & _ & _).
  rewrite contains_app in H. apply orb_false_iff in H as [_ H]. discriminate H.
Qed.

Section Run.
Variable ai : GoogleGenAI.
Variable remote : GoogleGenAI -> Request.t -> Outcome Response.t.
Variables characterImage productImage : ImageFile.

(** What the [catch] block makes of a caught value. *)
Lemma run_onCaught e :
  run remote (onCaught e) =
  (Rejected (ErrorObj match e with
                      | ErrorObj message => "Failed to generate image: " ++ message
                      | OtherValue _ => "An unknown error occurred during image generation."
                      end),
   [caughtLine e]).
Proof. destruct e; reflexivity. Qed.

Lemma run_character_rejected e :
  convertDataUrlToGeminiPart (base64Url characterImage) = Rejected e ->
  run remote (generateProductPlacementImage ai characterImage productImage) = run remote (onCaught e).
Proof.
  intros H. unfold generateProductPlacementImage, mbind, Async_bind.
  rewrite H. reflexivity.
Qed.

Lemma run_product_rejected characterPart e :
  convertDataUrlToGeminiPart (base64Url characterImage) = Resolved characterPart ->
  convertDataUrlToGeminiPart (base64Url productImage) = Rejected e ->
  run remote (generateProductPlacementImage ai characterImage productImage) = run remote (onCaught e).
Proof.
  intros Hc Hp. unfold generateProductPlacementImage, mbind, Async_bind.
  rewrite Hc, Hp. reflexivity.
Qed.

Section Requested.
Variables characterPart productPart : Part.t.
Hypothesis Hcharacter :
  convertDataUrlToGeminiPart (base64Url characterImage) = Resolved characterPart.
Hypothesis Hproduct :
  convertDataUrlToGeminiPart (base64Url productImage) = Resolved productPart.

Lemma run_remote_rejected e :
  remote ai (request characterPart productPart) = Rejected e ->
  run remote (generateProductPlacementImage ai characterImage productImage) =
  (fst (run remote (onCaught e)), NetworkCall ai (request characterPart productPart) :: [caughtLine e]).
Proof.
  intros H. unfold generateProductPlacementImage, mbind, Async_bind.
  rewrite Hcharacter, Hproduct. cbn. rewrite H.
  destruct e; reflexivity.
Qed.

Lemma run_image response data :
  remote ai (request characterPart productPart) = Resolved response ->
  firstInlineData (responseParts response) = Some data ->
  run remote (generateProductPlacementImage ai characterImage productImage) = (Resolved (Some data), [NetworkCall ai (request characterPart productPart)]).
Proof.
  intros H Hd. unfold generateProductPlacementImage, mbind, Async_bind.
  rewrite Hcharacter, Hproduct. cbn. rewrite H. cbn.
  rewrite Hd. reflexivity.
Qed.

Lemma run_refusal response c rest :
  remote ai (request characterPart productPart) = Resolved response ->
  firstInlineData (responseParts response) = None ->
  trim <$> Response.text response = Some (String c rest) ->
  run remote (generateProductPlacementImage ai characterImage productImage) =
  (Rejected (ErrorObj ("Failed to generate image: "
                       ++ "Model response: " ++ String c rest)),
   [NetworkCall ai (request characterPart productPart);
    caughtLine (ErrorObj ("Model response: " ++ String c rest))]).
Proof.
  intros H Hd Ht. unfold generateProductPlacementImage, mbind, Async_bind.
  rewrite Hcharacter, Hproduct. cbn. rewrite H. cbn.
  rewrite Hd, Ht. reflexivity.
Qed.

Lemma run_empty response :
  remote ai (request characterPart productPart) = Resolved response ->
  firstInlineData (responseParts response) = None ->
  truthy (trim <$> Response.text response) = false ->
  run remote (generateProductPlacementImage ai characterImage productImage) = (Resolved None, [NetworkCall ai (request characterPart productPart)]).
Proof.
  intros H Hd Ht. unfold generateProductPlacementImage, mbind, Async_bind.
  rewrite Hcharacter, Hproduct. cbn. rewrite H. cbn.
  rewrite Hd. destruct (trim <$> Response.text response) as [[|c rest]|];
    [reflexivity|discriminate|reflexivity].
Qed.

End Requested.
End Run.



Lemma firstInlineData_none parts :
  Forall (fun q => truthy (inlineDataOf q) = false) parts ->
  firstInlineData parts = None.
Proof.
  intros H. induction H as [|q parts Hq _ IH]; simpl; [reflexivity|].
  now rewrite Hq.
Qed.

Lemma string_app_nil_r (a : string) : a ++ "" = a.
Proof.
  induction a as [|x a IH]; [reflexivity|].
  change (String x (a ++ "") = String x a). now f_equal.
Qed.

(** A URL that converts carries what the part holds: the part is the image
    part of the MIME type and the payload the URL carries. *)
Lemma convert_resolved_carries url part :
  convertDataUrlToGeminiPart url = Resolved part ->
  exists m d,
    part = {| Part.inlineData :=
                Some {| Blob.data := Some d; Blob.mimeType := Some m |};
              Part.text := None |}
    /\ Carries url m d.
Proof.
  unfold convertDataUrlToGeminiPart.
  destruct (split "," url) as [|h t] eqn:Es; [discriminate|].
  change ((h :: t) !! 0%nat) with (Some h).
  change ((h :: t) !! 1%nat) with (t !! 0%nat). cbv beta iota zeta.
  destruct (truthy (MimeRegex.matchGroup1 h)) eqn:Tm; [|discriminate].
  destruct (truthy (t !! 0%nat)) eqn:Td; [|discriminate].
  apply truthy_inv in Tm as (m & Em & Hm). apply truthy_inv in Td as (d & Ed & Hd).
  rewrite Em, Ed. intros E. injection E as <-.
  exists m, d. split; [reflexivity|].
  destruct (split_first _ _ _ _ Es) as [Hh [[-> _]|(rest & -> & Et)]]; [discriminate|].
  destruct t as [|d' t']; [discriminate|]. injection Ed as ->.
  symmetry in Et. destruct (split_first _ _ _ _ Et) as [Hdc Hrest].
  destruct (MimeRegexFacts.match_sound _ _ Em) as (pre & post & ->).
  destruct Hrest as [[_ ->]|(rest' & -> & _)].
  - exists pre, post, "". rewrite string_app_nil_r. repeat split; auto.
  - exists pre, post, ("," ++ rest'). repeat split; eauto.
Qed.

End GenerateFacts.

(** * Properties of the generation client *)

Module GenerationClient.
Import Js DataUrl AsyncOps GeminiService JsFacts GeminiFacts GenerateFacts.

(** C1: if the data URL of either input lacks a MIME-type token or lacks a
    payload after its first comma (a URL without a comma lacks the
    payload), [generateProductPlacementImage] fails with the malformed-input
    error, and the run contains no network call: the only event is the
    console line of the [catch] block. *)
Theorem malformed_input_fails_before_any_network_call
    ai remote characterImage productImage :
  ~ HasMimeTypeToken (base64Url characterImage) \/
  ~ HasPayload (base64Url characterImage) \/
  ~ HasMimeTypeToken (base64Url productImage) \/
  ~ HasPayload (base64Url productImage) ->
  run remote (generateProductPlacementImage ai characterImage productImage)
  = (Rejected (ErrorObj "Failed to generate image: Invalid data URL"),
     [caughtLine (ErrorObj "Invalid data URL")])
  /\ networkCalls
       (snd (run remote (generateProductPlacementImage ai characterImage productImage)))
     = [].
Proof.
  intros H.
  assert (E : run remote (generateProductPlacementImage ai characterImage productImage)
              = (Rejected (ErrorObj "Failed to generate image: Invalid data URL"),
                 [caughtLine (ErrorObj "Invalid data URL")])).
  { destruct (convert_cases (base64Url characterImage)) as [Ec|(mc & dc & _ & _ & Ec)].
    { rewrite (run_character_rejected _ _ _ _ _ Ec). apply run_onCaught. }
    destruct (convert_cases (base64Url productImage)) as [Ep|(mp & dp & _ & _ & Ep)].
    { rewrite (run_product_rejected _ _ _ _ _ _ Ec Ep). apply run_onCaught. }
    destruct (convert_resolved_shape _ _ Ec) as [? ?].
    destruct (convert_resolved_shape _ _ Ep) as [? ?].
    exfalso. tauto. }
  rewrite E. split; reflexivity.
Qed.

Lemma malformed_input_witness :
  ~ HasPayload (base64Url Samples.commaless) /\
  fst (run (Samples.always (Resolved Samples.twoImages))
         (generateProductPlacementImage Samples.ai Samples.commaless Samples.product))
  = Rejected (ErrorObj "Failed to generate image: Invalid data URL").
Proof.
  assert (H : ~ HasPayload (base64Url Samples.commaless))
    by (apply no_comma_no_payload; reflexivity).
  split; [exact H|].
  destruct (malformed_input_fails_before_any_network_call
              Samples.ai (Samples.always (Resolved Samples.twoImages))
              Samples.commaless Samples.product) as [E _].
  - right; left; exact H.
  - rewrite E. reflexivity.
Defined.

(** C2: for inputs that both decode, the request the client sends carries
    exactly three parts in this order: an image part with the MIME type and
    the payload the character's data URL carries, an image part with those
    of the product's data URL, and a text part with the fixed instruction;
    the request is the first event of the run and its only network call. *)
Theorem request_parts_in_order
    ai remote characterImage productImage characterPart productPart :
  convertDataUrlToGeminiPart (base64Url characterImage) = Resolved characterPart ->
  convertDataUrlToGeminiPart (base64Url productImage) = Resolved productPart ->
  exists characterType characterData productType productData outcome later,
    Carries (base64Url characterImage) characterType characterData
    /\ Carries (base64Url productImage) productType productData
    /\ run remote (generateProductPlacementImage ai characterImage productImage)
       = (outcome,
          NetworkCall ai
            {| Request.model := "gemini-2.5-flash-image-preview";
               Request.contents :=
                 {| Content.parts :=
                      Some [ {| Part.inlineData :=
                                  Some {| Blob.data := Some characterData;
                                          Blob.mimeType := Some characterType |};
                                Part.text := None |};
                             {| Part.inlineData :=
                                  Some {| Blob.data := Some productData;
                                          Blob.mimeType := Some productType |};
                                Part.text := None |};
                             {| Part.inlineData := None;
                                Part.text :=
                                  Some "Analyze the first image (the character) and the second image (the product). Generate a new image where the character is naturally using or interacting with the product. The final output image MUST maintain the exact same aspect ratio and dimensions as the first (character) image. The art style should also match the character image." |} ] |};
               Request.config := {| Request.responseModalities := [IMAGE; TEXT] |} |}
            :: later)
    /\ networkCalls later = [].
Proof.
  intros Hc Hp.
  destruct (convert_resolved_carries _ _ Hc) as (mc & dc & Ecp & Cc).
  destruct (convert_resolved_carries _ _ Hp) as (mp & dp & Epp & Cp).
  exists mc, dc, mp, dp.
  assert (Ereq : request characterPart productPart
                 = {| Request.model := "gemini-2.5-flash-image-preview";
                      Request.contents :=
                        {| Content.parts :=
                             Some [ {| Part.inlineData :=
                                         Some {| Blob.data := Some dc;
                                                 Blob.mimeType := Some mc |};
                                       Part.text := None |};
                                    {| Part.inlineData :=
                                         Some {| Blob.data := Some dp;
                                                 Blob.mimeType := Some mp |};
                                       Part.text := None |};
                                    {| Part.inlineData := None;
                                       Part.text := Some instruction |} ] |};
                      Request.config := {| Request.responseModalities := [IMAGE; TEXT] |} |})
    by (rewrite Ecp, Epp; reflexivity).
  change "Analyze the first image (the character) and the second image (the product). Generate a new image where the character is naturally using or interacting with the product. The final output image MUST maintain the exact same aspect ratio and dimensions as the first (character) image. The art style should also match the character image."
    with instruction.
  rewrite <- Ereq.
  destruct (remote ai (request characterPart productPart)) as [response|e] eqn:Er.
  - destruct (firstInlineData (responseParts response)) as [data|] eqn:Ed.
    + eexists _, _. rewrite (run_image _ _ _ _ _ _ Hc Hp _ _ Er Ed).
      repeat split; assumption.
    + destruct (trim <$> Response.text response) as [[|c rest]|] eqn:Et.
      * eexists _, _. rewrite (run_empty _ _ _ _ _ _ Hc Hp _ Er Ed); [|now rewrite Et].
        repeat split; assumption.
      * eexists _, _. rewrite (run_refusal _ _ _ _ _ _ Hc Hp _ _ _ Er Ed Et).
        repeat split; assumption.
      * eexists _, _. rewrite (run_empty _ _ _ _ _ _ Hc Hp _ Er Ed); [|now rewrite Et].
        repeat split; assumption.
  - eexists _, _. rewrite (run_remote_rejected _ _ _ _ _ _ Hc Hp _ Er).
    repeat split; assumption.
Qed.

Lemma request_parts_witness :
  exists characterType characterData productType productData outcome later,
    Carries "data:image/png;base64,iVBORw==" characterType characterData
    /\ Carries "data:image/jpeg;base64,/9j/" productType productData
    /\ run (Samples.always (Resolved Samples.silent))
         (generateProductPlacementImage Samples.ai Samples.character Samples.product)
       = (outcome,
          NetworkCall Samples.ai
            {| Request.model := "gemini-2.5-flash-image-preview";
               Request.contents :=
                 {| Content.parts :=
                      Some [ {| Part.inlineData :=
                                  Some {| Blob.data := Some characterData;
                                          Blob.mimeType := Some characterType |};
                                Part.text := None |};
                             {| Part.inlineData :=
                                  Some {| Blob.data := Some productData;
                                          Blob.mimeType := Some productType |};
                                Part.text := None |};
                             {| Part.inlineData := None;
                                Part.text :=
                                  Some "Analyze the first image (the character) and the second image (the product). Generate a new image where the character is naturally using or interacting with the product. The final output image MUST maintain the exact same aspect ratio and dimensions as the first (character) image. The art style should also match the character image." |} ] |};
               Request.config := {| Request.responseModalities := [IMAGE; TEXT] |} |}
            :: later)
    /\ networkCalls later = [].
Proof.
  apply (request_parts_in_order Samples.ai (Samples.always (Resolved Samples.silent))
           Samples.character Samples.product Samples.characterPart Samples.productPart);
    reflexivity.
Defined.

(** The request for the sample images, written out. *)
Example request_for_the_samples :
  run (Samples.always (Resolved Samples.silent))
    (generateProductPlacementImage Samples.ai Samples.character Samples.product)
  = (Resolved None,
     [NetworkCall Samples.ai
        {| Request.model := "gemini-2.5-flash-image-preview";
           Request.contents :=
             {| Content.parts :=
                  Some [ {| Part.inlineData :=
                              Some {| Blob.data := Some "iVBORw==";
                                      Blob.mimeType := Some "image/png" |};
                            Part.text := None |};
                         {| Part.inlineData :=
                              Some {| Blob.data := Some "/9j/";
                                      Blob.mimeType := Some "image/jpeg" |};
                            Part.text := None |};
                         {| Part.inlineData := None;
                            Part.text :=
                              Some "Analyze the first image (the character) and the second image (the product). Generate a new image where the character is naturally using or interacting with the product. The final output image MUST maintain the exact same aspect ratio and dimensions as the first (character) image. The art style should also match the character image." |} ] |};
           Request.config := {| Request.responseModalities := [IMAGE; TEXT] |} |}]).
Proof. reflexivity. Qed.



(** C4: when no part of the response carries inline image data and the
    trimmed top-level text is not empty, the client fails with an error
    whose message contains that trimmed text as it is. *)
Theorem refusal_text_is_embedded
    ai remote characterImage productImage characterPart productPart
    response text :
  convertDataUrlToGeminiPart (base64Url characterImage) = Resolved characterPart ->
  convertDataUrlToGeminiPart (base64Url productImage) = Resolved productPart ->
  remote ai (request characterPart productPart) = Resolved response ->
  Forall (fun q => truthy (inlineDataOf q) = false) (responseParts response) ->
  Response.text response = Some text -> trim text <> "" ->
  exists message,
    fst (run remote (generateProductPlacementImage ai characterImage productImage))
    = Rejected (ErrorObj message)
    /\ includes (trim text) message.
Proof.
  intros Hc Hp Er Hparts Ht Hne.
  destruct (trim text) as [|c rest] eqn:Etrim; [congruence|].
  exists ("Failed to generate image: " ++ "Model response: " ++ String c rest).
  split.
  - rewrite (run_refusal _ _ _ _ _ _ Hc Hp response c rest Er); [reflexivity| |].
    + now apply firstInlineData_none.
    + rewrite Ht. cbn. now rewrite Etrim.
  - exists "Failed to generate image: Model response: ", "". 
    change (String c rest ++ "") with (String c (rest ++ "")).
    assert (R : forall s : string, s ++ "" = s).
    { induction s as [|x s IH]; [reflexivity|].
      change (String x (s ++ "") = String x s). now f_equal. }
    rewrite R. reflexivity.
Qed.

Lemma refusal_text_witness :
  exists message,
    fst (run (Samples.always (Resolved Samples.refusal))
           (generateProductPlacementImage Samples.ai Samples.character Samples.product))
    = Rejected (ErrorObj message)
    /\ includes "Cannot comply" message.
Proof.
  apply (refusal_text_is_embedded Samples.ai (Samples.always (Resolved Samples.refusal))
           Samples.character Samples.product Samples.characterPart Samples.productPart
           Samples.refusal "  Cannot comply ");
    try reflexivity.
  - repeat constructor.
  - discriminate.
Defined.

(** C5: when no part of the response carries inline image data and the
    top-level text is absent or trims to the empty string, the client
    resolves with [null]; it does not throw. *)
Theorem empty_response_gives_null
    ai remote characterImage productImage characterPart productPart response :
  convertDataUrlToGeminiPart (base64Url characterImage) = Resolved characterPart ->
  convertDataUrlToGeminiPart (base64Url productImage) = Resolved productPart ->
  remote ai (request characterPart productPart) = Resolved response ->
  Forall (fun q => truthy (inlineDataOf q) = false) (responseParts response) ->
  Response.text response = None \/
  (exists text, Response.text response = Some text /\ trim text = "") ->
  run remote (generateProductPlacementImage ai characterImage productImage)
  = (Resolved None, [NetworkCall ai (request characterPart productPart)]).
Proof.
  intros Hc Hp Er Hparts Ht.
  apply (run_empty _ _ _ _ _ _ Hc Hp response Er).
  - now apply firstInlineData_none.
  - destruct Ht as [->|(text & -> & Etrim)]; [reflexivity|].
    cbn. now rewrite Etrim.
Qed.

Lemma empty_response_witness :
  run (Samples.always (Resolved Samples.silent))
    (generateProductPlacementImage Samples.ai Samples.character Samples.product)
  = (Resolved None,
     [NetworkCall Samples.ai (request Samples.characterPart Samples.productPart)]).
Proof.
  apply (empty_response_gives_null Samples.ai (Samples.always (Resolved Samples.silent))
           Samples.character Samples.product Samples.characterPart Samples.productPart
           Samples.silent); try reflexivity.
  - constructor.
  - left; reflexivity.
Defined.

(** C6: when the environment has no [API_KEY], initialising the module
    throws, so the module exports nothing: there is no function through
    which a request could be made. *)
Theorem missing_credential_refuses_to_initialise (env : gmap string string) :
  env !! "API_KEY" = None ->
  init env = Rejected (ErrorObj "API_KEY environment variable not set")
  /\ load env = Rejected (ErrorObj "API_KEY environment variable not set").
Proof.
  intros H. unfold load, init. rewrite H. split; reflexivity.
Qed.

Lemma missing_credential_witness :
  init (∅ : gmap string string)
  = Rejected (ErrorObj "API_KEY environment variable not set")
  /\ load (∅ : gmap string string)
     = Rejected (ErrorObj "API_KEY environment variable not set").
Proof.
  apply (missing_credential_refuses_to_initialise ∅). reflexivity.
Defined.




End GenerationClient.

(** * Base64 round trip *)

Module Base64Facts.
Import DataUrl Base64.
Local Open Scope N_scope.

Ltac Zify.zify_post_hook ::= Z.to_euclidean_division_equations.

(** Case analysis on a 6-bit value. *)
Ltac sextet n H :=
  destruct n as [|p]; [reflexivity|];
  do 6 (destruct p as [p|p|]; try reflexivity); exfalso; lia.

Lemma valueOf_charOf n : n < 64 -> valueOf (charOf n) = Some n.
Proof. intros H. sextet n H. Qed.

Lemma charOf_not_pad n : n < 64 -> Ascii.eqb (charOf n) pad = false.
Proof. intros H. sextet n H. Qed.

Lemma charOf_not_comma n : n < 64 -> Ascii.eqb (charOf n) "," = false.
Proof. intros H. sextet n H. Qed.

Lemma byte_lt (a : Byte.byte) : Byte.to_N a < 256.
Proof. pose proof (Byte.to_N_bounded a). lia. Qed.

(** Finds the sextets that join back into the byte [a]. *)
Ltac rejoin a :=
  match goal with
  | |- context [Byte.of_N ?n] =>
      replace n with (Byte.to_N a) by lia; rewrite (Byte.of_to_N a)
  end; cbn [mbind option_bind].

Lemma decode_encode1 a : decode (encode1 a) = Some [a].
Proof.
  pose proof (byte_lt a). unfold encode1. cbn [decode].
  rewrite Ascii.eqb_refl. cbn [andb].
  rewrite !valueOf_charOf by lia. cbn [mbind option_bind].
  rejoin a. reflexivity.
Qed.

Lemma decode_encode2 a b : decode (encode2 a b) = Some [a; b].
Proof.
  pose proof (byte_lt a). pose proof (byte_lt b). unfold encode2. cbn [decode].
  rewrite Ascii.eqb_refl, charOf_not_pad by lia. cbn [andb].
  rewrite !valueOf_charOf by lia. cbn [mbind option_bind].
  rejoin a. rejoin b. reflexivity.
Qed.

Lemma decode_encode3 a b c tail :
  decode (encode3 a b c tail)
  = (rest ← decode tail; Some (a :: b :: c :: rest)).
Proof.
  pose proof (byte_lt a). pose proof (byte_lt b). pose proof (byte_lt c).
  unfold encode3. cbn [decode].
  rewrite (charOf_not_pad (Byte.to_N c mod 64)) by lia.
  rewrite andb_false_r.
  rewrite !valueOf_charOf by lia. cbn [mbind option_bind].
  rejoin a. rejoin b. rejoin c.
  reflexivity.
Qed.

(** Lists three elements at a time. *)
Lemma list_ind3 {A} (P : list A -> Prop) :
  P [] -> (forall a, P [a]) -> (forall a b, P [a; b]) ->
  (forall a b c rest, P rest -> P (a :: b :: c :: rest)) ->
  forall l, P l.
Proof.
  intros H0 H1 H2 H3 l.
  assert (H : P l /\ (forall a, P (a :: l)) /\ (forall a b, P (a :: b :: l))).
  { induction l as [|x l (IH0 & IH1 & IH2)]; [auto|].
    split; [apply IH1|]. split; [intros; apply IH2|].
    intros a b. now apply H3. }
  apply H.
Qed.

(** Decoding undoes encoding. *)
Lemma decode_encode bs : decode (encode bs) = Some bs.
Proof.
  induction bs as [|a|a b|a b c rest IH] using list_ind3.
  - reflexivity.
  - apply decode_encode1.
  - apply decode_encode2.
  - change (encode (a :: b :: c :: rest)) with (encode3 a b c (encode rest)).
    rewrite decode_encode3, IH. reflexivity.
Qed.

(** The encoding has no comma. *)
Lemma encode_no_comma bs : contains "," (encode bs) = false.
Proof.
  induction bs as [|a|a b|a b c rest IH] using list_ind3.
  - reflexivity.
  - pose proof (byte_lt a). unfold encode, encode1. cbn [contains].
    rewrite !charOf_not_comma by lia. reflexivity.
  - pose proof (byte_lt a). pose proof (byte_lt b).
    unfold encode, encode2. cbn [contains].
    rewrite !charOf_not_comma by lia. reflexivity.
  - pose proof (byte_lt a). pose proof (byte_lt b). pose proof (byte_lt c).
    change (encode (a :: b :: c :: rest)) with (encode3 a b c (encode rest)).
    unfold encode3. cbn [contains].
    rewrite !charOf_not_comma by lia. exact IH.
Qed.

(** Only the empty content encodes to the empty string. *)
Lemma encode_not_empty bs : bs <> [] -> encode bs <> EmptyString.
Proof.
  destruct bs as [|a [|b [|c rest]]]; [congruence| | |]; intros _; discriminate.
Qed.

End Base64Facts.

(** * Properties of the uploader *)

Module UploaderFacts.
Import Js DataUrl GeminiService Uploader JsFacts GeminiFacts Base64Facts.

(** Once mounted, the component always has its file input. *)
Lemma reachable_has_input st :
  Reachable st -> exists el, fileInputRef st = Some el.
Proof.
  induction 1 as [|a st st' ns _ [el Hel] Hstep].
  - eexists; reflexivity.
  - destruct a as [files|i|e]; simpl in Hstep.
    + rewrite Hel in Hstep. injection Hstep as Hst.
      unfold handleFileChange in Hst.
      destruct (firstFile files) as [f|];
        [destruct (startsWith "image/" (File.type f))|];
        injection Hst as <- _; eexists; reflexivity.
    + destruct (reading st !! i) as [f|]; [|discriminate].
      injection Hstep as <- _. exists el. exact Hel.
    + destruct (truthy (imagePreview st)); [|discriminate].
      injection Hstep as <- _. simpl. rewrite Hel. eexists; reflexivity.
Qed.

Lemma startsWith_not_empty p s :
  startsWith p s = true -> p <> "" -> s <> "".
Proof. intros H Hp ->. destruct p; [congruence|discriminate]. Qed.

(** C7: when the selection has no first file, or the first file's declared
    type does not start with ["image/"], [handleFileChange] sets the
    preview to [null] and calls the owner once, with [null]; the handler
    completes normally, this branch has no exceptional exit. *)
Theorem non_image_selection_clears files st :
  firstFile files = None \/
  (exists f, firstFile files = Some f /\
             startsWith "image/" (File.type f) = false) ->
  handleFileChange files st
  = ({| imagePreview := None;
        fileInputRef := fileInputRef st;
        reading := reading st |}, [None]).
Proof.
  intros [H|(f & H & Ht)]; unfold handleFileChange; rewrite H; [|rewrite Ht];
    reflexivity.
Qed.

Lemma non_image_selection_witness :
  handleFileChange (Some [UploaderSamples.notes]) UploaderSamples.previewing
  = ({| imagePreview := None;
        fileInputRef := fileInputRef UploaderSamples.previewing;
        reading := reading UploaderSamples.previewing |}, [None]).
Proof.
  apply (non_image_selection_clears (Some [UploaderSamples.notes])
           UploaderSamples.previewing).
  right. exists UploaderSamples.notes. split; reflexivity.
Defined.

(** C8: in every state the mounted component can reach in which a preview
    is shown, [handleClear] empties the preview, calls the owner once with
    [null] and sets the file input's value to the empty string, after
    which the browser reports the selection of any file, the one selected
    before included; the outstanding reads, the rest of the state, are
    left as they were. *)
Theorem clear_resets_preview_owner_and_widget st e url :
  Reachable st -> imagePreview st = Some url ->
  handleClear e st
  = ({| imagePreview := None;
        fileInputRef := Some {| value := "" |};
        reading := reading st |},
     [None],
     {| propagationStopped := true; defaultPrevented := true |})
  /\ forall f, changeFires {| value := "" |} f = true.
Proof.
  intros Hr _. destruct (reachable_has_input st Hr) as [el Hel].
  split.
  - unfold handleClear. rewrite Hel. reflexivity.
  - intros f. reflexivity.
Qed.

Lemma previewing_reachable : Reachable UploaderSamples.previewing.
Proof.
  apply (reach_step (LoadEnd 0 true)
           {| imagePreview := None;
              fileInputRef := Some {| value := fakepath Samples.png |};
              reading := [Samples.png] |} _
           [Some {| Loaded.file := Samples.png;
                    Loaded.base64Url := Some (readAsDataURL Samples.png) |}]);
    [|reflexivity].
  apply (reach_step (Change (Some [Samples.png])) mounted _ []); [|reflexivity].
  apply reach_mounted.
Qed.

Lemma clear_witness :
  handleClear UploaderSamples.click UploaderSamples.previewing
  = ({| imagePreview := None;
        fileInputRef := Some {| value := "" |};
        reading := [] |},
     [None],
     {| propagationStopped := true; defaultPrevented := true |})
  /\ forall f, changeFires {| value := "" |} f = true.
Proof.
  apply (clear_resets_preview_owner_and_widget UploaderSamples.previewing
           UploaderSamples.click (readAsDataURL Samples.png)).
  - exact previewing_reachable.
  - reflexivity.
Defined.

Lemma stripPrefix_app p s : stripPrefix p (p ++ s) = Some s.
Proof.
  induction p as [|a p IH]; [now destruct s|].
  change (stripPrefix (String a p) (String a (p ++ s)) = Some s).
  cbn [stripPrefix]. now rewrite Ascii.eqb_refl.
Qed.

(** C9: for every file the uploader accepts (its declared type starts with
    ["image/"]), the selection starts a read, and when the read has
    produced its result the uploader shows and hands to its owner a data
    URL that decodes, by stripping the header [data:<mimeType>;base64,] of
    the file's declared type and base64-decoding the rest, to the bytes of
    the file. *)
Theorem data_url_round_trip files f st :
  firstFile files = Some f -> startsWith "image/" (File.type f) = true ->
  exists url,
    handleFileChange files st
    = ({| imagePreview := imagePreview st;
          fileInputRef := fileInputRef st;
          reading := (reading st ++ [f])%list |}, [])
    /\ readerResult true f = Some url
    /\ onloadend f (Some url) st
       = ({| imagePreview := Some url;
             fileInputRef := fileInputRef st;
             reading := reading st |},
          [Some {| Loaded.file := f; Loaded.base64Url := Some url |}])
    /\ DataUrl.decode (File.type f) url = Some (File.bytes f).
Proof.
  intros Hf Ht. exists (readAsDataURL f).
  split; [unfold handleFileChange; now rewrite Hf, Ht|].
  split; [reflexivity|]. split; [reflexivity|].
  unfold DataUrl.decode, readAsDataURL.
  replace ("data:" ++ File.type f ++ ";base64," ++ Base64.encode (File.bytes f))
    with (("data:" ++ File.type f ++ ";base64,") ++ Base64.encode (File.bytes f))
    by (rewrite !string_app_assoc; reflexivity).
  rewrite stripPrefix_app. cbn [mbind option_bind]. apply decode_encode.
Qed.

Lemma data_url_round_trip_witness :
  exists url,
    handleFileChange (Some [UploaderSamples.blank]) mounted
    = ({| imagePreview := imagePreview mounted;
          fileInputRef := fileInputRef mounted;
          reading := (reading mounted ++ [UploaderSamples.blank])%list |}, [])
    /\ readerResult true UploaderSamples.blank = Some url
    /\ onloadend UploaderSamples.blank (Some url) mounted
       = ({| imagePreview := Some url;
             fileInputRef := fileInputRef mounted;
             reading := reading mounted |},
          [Some {| Loaded.file := UploaderSamples.blank; Loaded.base64Url := Some url |}])
    /\ DataUrl.decode (File.type UploaderSamples.blank) url
       = Some (File.bytes UploaderSamples.blank).
Proof.
  apply (data_url_round_trip (Some [UploaderSamples.blank]) UploaderSamples.blank mounted);
    reflexivity.
Defined.

(** The round trip on the sample image, written out. *)
Example round_trip_of_the_sample :
  readerResult true Samples.png = Some "data:image/png;base64,iVBORw=="
  /\ DataUrl.decode "image/png" "data:image/png;base64,iVBORw=="
     = Some [Byte.x89; Byte.x50; Byte.x4e; Byte.x47]
  /\ DataUrl.decode "image/jpeg" "data:image/png;base64,iVBORw==" = None.
Proof. repeat split. Qed.

End UploaderFacts.

(** * The primitives on known values *)

Module Checks.
Import Js MimeRegex GeminiService.

Example split_without_separator : split "," "abc" = ["abc"].
Proof. reflexivity. Qed.

Example split_three : split "," "a,b,c" = ["a"; "b"; "c"].
Proof. reflexivity. Qed.

Example split_trailing_separator : split "," "a," = ["a"; ""].
Proof. reflexivity. Qed.

Example split_empty : split "," "" = [""].
Proof. reflexivity. Qed.

Example match_png : matchGroup1 "data:image/png;base64" = Some "image/png".
Proof. reflexivity. Qed.

Example match_is_lazy : matchGroup1 "data:image/png;a;b" = Some "image/png".
Proof. reflexivity. Qed.

Example match_leftmost_may_be_empty : matchGroup1 "a:;b:c;" = Some "".
Proof. reflexivity. Qed.

Example match_skips_line_break :
  matchGroup1 (String ":" (String "010" "b;c:d;")) = Some "d".
Proof. reflexivity. Qed.

Example match_without_semicolon : matchGroup1 "data:image/png" = None.
Proof. reflexivity. Qed.

Example trim_both_ends :
  trim (String "009" " Cannot comply " ++ String "010" "") = "Cannot comply".
Proof. reflexivity. Qed.

Example trim_blank : trim "   " = "".
Proof. reflexivity. Qed.

Example encode_png_magic :
  Base64.encode [Byte.x89; Byte.x50; Byte.x4e; Byte.x47] = "iVBORw==".
Proof. reflexivity. Qed.

Example encode_man :
  Base64.encode [Byte.x4d; Byte.x61; Byte.x6e] = "TWFu"
  /\ Base64.encode [Byte.x4d; Byte.x61] = "TWE="
  /\ Base64.encode [Byte.x4d] = "TQ==".
Proof. repeat split. Qed.

Example decode_jpeg_magic :
  Base64.decode "/9j/" = Some [Byte.xff; Byte.xd8; Byte.xff].
Proof. reflexivity. Qed.

Example convert_sample :
  convertDataUrlToGeminiPart "data:image/png;base64,iVBORw=="
  = Resolved (imagePart (Some "image/png") (Some "iVBORw==")).
Proof. reflexivity. Qed.

Example convert_empty_mime :
  convertDataUrlToGeminiPart "data:;base64,iVBORw=="
  = Rejected (ErrorObj "Invalid data URL").
Proof. reflexivity. Qed.

Example convert_second_piece_only :
  convertDataUrlToGeminiPart "data:image/png;base64,AAAA,BBBB"
  = Resolved (imagePart (Some "image/png") (Some "AAAA")).
Proof. reflexivity. Qed.

Example init_with_empty_key :
  init {[ "API_KEY" := "" ]}
  = Rejected (ErrorObj "API_KEY environment variable not set").
Proof. reflexivity. Qed.

Example init_with_key : init {[ "API_KEY" := "secret" ]} = Resolved {| apiKey := "secret" |}.
Proof. reflexivity. Qed.

End Checks.

(** * More about the generation client *)

Module ClientExtras.
Import Js DataUrl MimeRegex AsyncOps GeminiService RunView.
Import JsFacts MimeRegexFacts GeminiFacts GenerateFacts.

Lemma firstInlineData_not_empty parts data :
  firstInlineData parts = Some data -> data <> "".
Proof.
  induction parts as [|part rest IH]; simpl; [discriminate|].
  destruct (truthy (inlineDataOf part)) eqn:T; [|exact IH].
  intros E. rewrite E in T. now apply truthy_Some.
Qed.

Lemma run_shape ai remote characterImage productImage :
  RunShape ai remote
    (run remote (generateProductPlacementImage ai characterImage productImage)).
Proof.
  destruct (convert_cases (base64Url characterImage)) as [Ec|(mc & dc & _ & _ & Ec)].
  { rewrite (run_character_rejected _ _ _ _ _ Ec), run_onCaught. constructor. }
  destruct (convert_cases (base64Url productImage)) as [Ep|(mp & dp & _ & _ & Ep)].
  { rewrite (run_product_rejected _ _ _ _ _ _ Ec Ep), run_onCaught. constructor. }
  destruct (remote ai (request (imagePart (Some mc) (Some dc))
                               (imagePart (Some mp) (Some dp))))
    as [response|v] eqn:Er.
  - destruct (firstInlineData (responseParts response)) as [data|] eqn:Ed.
    { rewrite (run_image _ _ _ _ _ _ Ec Ep _ _ Er Ed). constructor.
      eapply firstInlineData_not_empty; eassumption. }
    destruct (trim <$> Response.text response) as [[|c rest]|] eqn:Et.
    + rewrite (run_empty _ _ _ _ _ _ Ec Ep _ Er Ed); [constructor|now rewrite Et].
    + rewrite (run_refusal _ _ _ _ _ _ Ec Ep _ _ _ Er Ed Et).
      apply shape_refusal. discriminate.
    + rewrite (run_empty _ _ _ _ _ _ Ec Ep _ Er Ed); [constructor|now rewrite Et].
  - rewrite (run_remote_rejected _ _ _ _ _ _ Ec Ep _ Er), run_onCaught.
    destruct v; [now apply shape_remote_error|now eapply shape_remote_other].
Qed.

(** X1: whatever the inputs and whatever the endpoint answers, one call of
    [generateProductPlacementImage] makes at most one network call. *)
Theorem at_most_one_network_call ai remote characterImage productImage :
  length (networkCalls
            (snd (run remote
                    (generateProductPlacementImage ai characterImage productImage))))
  <= 1.
Proof.
  destruct (run_shape ai remote characterImage productImage); vm_compute; lia.
Qed.

(** X2: a run that resolves writes nothing to the console; a run that
    rejects writes exactly one line, as its last event, and that line holds
    the caught value from which the message of the thrown error is made. *)
Theorem rejections_are_logged_once ai remote characterImage productImage :
  match fst (run remote (generateProductPlacementImage ai characterImage productImage))
  with
  | Resolved _ =>
      consoleLines
        (snd (run remote (generateProductPlacementImage ai characterImage productImage)))
      = []
  | Rejected thrown =>
      exists cause,
        consoleLines
          (snd (run remote (generateProductPlacementImage ai characterImage productImage)))
        = [caughtLine cause]
        /\ last
             (snd (run remote (generateProductPlacementImage ai characterImage productImage)))
           = Some (caughtLine cause)
        /\ thrown = ErrorObj match cause with
                             | ErrorObj message => "Failed to generate image: " ++ message
                             | OtherValue _ =>
                                 "An unknown error occurred during image generation."
                             end
  end.
Proof.
  destruct (run_shape ai remote characterImage productImage); cbn;
    try reflexivity; eexists; repeat split.
Qed.

(** X3: the client never resolves with an empty string: a run that
    resolves gives [null] or a non-empty payload, and it made its network
    call. *)
Theorem resolved_payload_is_not_empty ai remote characterImage productImage result :
  fst (run remote (generateProductPlacementImage ai characterImage productImage))
  = Resolved result ->
  (result = None \/ exists data, result = Some data /\ data <> "")
  /\ exists req,
       snd (run remote (generateProductPlacementImage ai characterImage productImage))
       = [NetworkCall ai req].
Proof.
  destruct (run_shape ai remote characterImage productImage); cbn;
    intros E; try discriminate E; injection E as <-.
  - split; [right|]; eauto.
  - split; [left|]; eauto.
Qed.

Lemma resolved_payload_witness :
  (Some "AAAA" = None \/ exists data, Some "AAAA" = Some data /\ data <> "")
  /\ exists req,
       snd (run (Samples.always (Resolved Samples.twoImages))
              (generateProductPlacementImage Samples.ai Samples.character Samples.product))
       = [NetworkCall Samples.ai req].
Proof.
  apply (resolved_payload_is_not_empty Samples.ai
           (Samples.always (Resolved Samples.twoImages))
           Samples.character Samples.product (Some "AAAA")).
  reflexivity.
Defined.

(** X4: when both inputs decode and the remote call rejects with an
    [Error], the client makes that one call, logs the error and throws an
    error whose message is the prefix followed by the remote error's
    message. *)
Theorem remote_error_message_is_passed_through
    ai remote characterImage productImage characterPart productPart message :
  convertDataUrlToGeminiPart (base64Url characterImage) = Resolved characterPart ->
  convertDataUrlToGeminiPart (base64Url productImage) = Resolved productPart ->
  remote ai (request characterPart productPart) = Rejected (ErrorObj message) ->
  run remote (generateProductPlacementImage ai characterImage productImage)
  = (Rejected (ErrorObj ("Failed to generate image: " ++ message)),
     [NetworkCall ai (request characterPart productPart);
      caughtLine (ErrorObj message)]).
Proof.
  intros Hc Hp Er.
  rewrite (run_remote_rejected _ _ _ _ _ _ Hc Hp _ Er), run_onCaught. reflexivity.
Qed.

Lemma remote_error_witness :
  run (Samples.always (Rejected (ErrorObj "503 Service Unavailable")))
    (generateProductPlacementImage Samples.ai Samples.character Samples.product)
  = (Rejected (ErrorObj ("Failed to generate image: " ++ "503 Service Unavailable")),
     [NetworkCall Samples.ai (request Samples.characterPart Samples.productPart);
      caughtLine (ErrorObj "503 Service Unavailable")]).
Proof.
  apply (remote_error_message_is_passed_through Samples.ai
           (Samples.always (Rejected (ErrorObj "503 Service Unavailable")))
           Samples.character Samples.product); reflexivity.
Defined.

Lemma lazy_no_line_break s m :
  lazyDotsThenSemicolon s = Some m ->
  contains "010" m = false /\ contains "013" m = false.
Proof.
  revert m. induction s as [|c s IH]; simpl; intros m E; [discriminate|].
  destruct (Ascii.eqb c ";"); [injection E as <-; split; reflexivity|].
  unfold isLineTerminator in E.
  destruct (Ascii.eqb c "010") eqn:E1; [discriminate|].
  destruct (Ascii.eqb c "013") eqn:E2; [discriminate|]. simpl in E.
  destruct (lazyDotsThenSemicolon s) as [m'|]; [|discriminate].
  injection E as <-. destruct (IH m' eq_refl) as [H1 H2].
  simpl. rewrite E1, E2. split; assumption.
Qed.

(** What the regular expression captures holds no [";"] and no line break. *)
Lemma match_capture_clean s m :
  matchGroup1 s = Some m ->
  contains ";" m = false /\ contains "010" m = false /\ contains "013" m = false.
Proof.
  induction s as [|c s IH]; simpl; intros E; [discriminate|].
  destruct (Ascii.eqb c ":"); [|auto].
  destruct (lazyDotsThenSemicolon s) as [m'|] eqn:El; [|auto].
  injection E as <-. destruct (lazy_sound _ _ El) as (post & _ & H).
  destruct (lazy_no_line_break _ _ El). auto.
Qed.

Lemma match_no_colon s : contains ":" s = false -> matchGroup1 s = None.
Proof.
  induction s as [|c s IH]; simpl; intros H; [reflexivity|].
  apply orb_false_iff in H as [-> H]. auto.
Qed.

Lemma split_pieces_no_sep sep s :
  Forall (fun piece => contains sep piece = false) (split sep s).
Proof.
  induction s as [|c s IH]; simpl; [repeat constructor|].
  destruct (Ascii.eqb c sep) eqn:Ec; [constructor; [reflexivity|exact IH]|].
  destruct (split sep s) as [|piece pieces]; [repeat constructor; simpl; now rewrite Ec|].
  inversion IH as [|? ? Hp Hps]; subst.
  constructor; [simpl; now rewrite Ec|assumption].
Qed.

Lemma split_app_nosep sep a b h t :
  contains sep a = false -> split sep b = h :: t ->
  split sep (a ++ b) = (a ++ h) :: t.
Proof.
  intros Ha Hb. induction a as [|c a IH]; [exact Hb|].
  simpl in Ha. apply orb_false_iff in Ha as [Hc Ha].
  change (split sep (String c (a ++ b)) = String c (a ++ h) :: t).
  cbn [split]. rewrite Hc, (IH Ha). reflexivity.
Qed.

Lemma contains_first sep s :
  contains sep s = true ->
  exists a b, s = a ++ String sep b /\ contains sep a = false.
Proof.
  induction s as [|c s IH]; simpl; intros H; [discriminate|].
  destruct (Ascii.eqb c sep) eqn:Ec.
  - apply Ascii.eqb_eq in Ec as ->. exists "", s. split; reflexivity.
  - destruct (IH H) as (a & b & -> & Ha).
    exists (String c a), b. split; [reflexivity|]. simpl. now rewrite Ec.
Qed.

(** X5: what a successful conversion returns is an image part whose MIME
    type and payload are both present and non-empty; the MIME type holds no
    [";"], no [","] and no line break, and the payload no [","]. *)
Theorem converted_part_is_clean url part :
  convertDataUrlToGeminiPart url = Resolved part ->
  exists m d,
    part = imagePart (Some m) (Some d) /\ m <> "" /\ d <> "" /\
    plainToken m = true /\ contains "," d = false.
Proof.
  unfold convertDataUrlToGeminiPart.
  pose proof (split_pieces_no_sep "," url) as Hpieces.
  destruct (split "," url) as [|h t] eqn:Es; [discriminate|].
  change ((h :: t) !! 0%nat) with (Some h).
  change ((h :: t) !! 1%nat) with (t !! 0%nat). cbv beta iota zeta.
  destruct (truthy (matchGroup1 h)) eqn:Tm; [|discriminate].
  destruct (truthy (t !! 0%nat)) eqn:Td; [|discriminate].
  apply truthy_inv in Tm as (m & Em & Hm). apply truthy_inv in Td as (d & Ed & Hd).
  rewrite Em, Ed. cbn. intros E. injection E as <-.
  exists m, d. repeat split; try assumption.
  - inversion Hpieces as [|? ? Hh _]; subst.
    destruct (match_capture_clean _ _ Em) as (H1 & H2 & H3).
    destruct (match_sound _ _ Em) as (pre & post & Eh).
    rewrite Eh in Hh. rewrite !contains_app in Hh.
    apply orb_false_iff in Hh as [_ Hh]. apply orb_false_iff in Hh as [_ Hh].
    apply orb_false_iff in Hh as [Hh _].
    unfold plainToken. now rewrite H1, H2, H3, Hh.
  - inversion Hpieces as [|? ? _ Ht]; subst.
    destruct t as [|d' t']; [discriminate|]. injection Ed as ->.
    now inversion Ht.
Qed.

Lemma converted_part_witness :
  exists m d,
    Samples.characterPart = imagePart (Some m) (Some d) /\ m <> "" /\ d <> "" /\
    plainToken m = true /\ contains "," d = false.
Proof.
  apply (converted_part_is_clean (base64Url Samples.character)). reflexivity.
Defined.

(** X6: the payload is the text between the first and the second comma:
    whatever follows a second comma in the data URL has no effect on the
    conversion. *)
Theorem text_after_second_comma_is_ignored header payload rest :
  contains "," header = false -> contains "," payload = false ->
  convertDataUrlToGeminiPart (header ++ "," ++ payload ++ "," ++ rest)
  = convertDataUrlToGeminiPart (header ++ "," ++ payload).
Proof.
  intros Hh Hp. unfold convertDataUrlToGeminiPart.
  change (header ++ "," ++ payload ++ "," ++ rest)
    with (header ++ String "," (payload ++ String "," rest)).
  change (header ++ "," ++ payload) with (header ++ String "," payload).
  rewrite !split_app by assumption. rewrite (split_no_sep _ _ Hp).
  reflexivity.
Qed.

Lemma text_after_second_comma_witness :
  convertDataUrlToGeminiPart ("data:image/png;base64" ++ "," ++ "AAAA" ++ "," ++ "BBBB")
  = convertDataUrlToGeminiPart ("data:image/png;base64" ++ "," ++ "AAAA").
Proof.
  apply (text_after_second_comma_is_ignored "data:image/png;base64" "AAAA" "BBBB");
    reflexivity.
Defined.

(** X7: when the first [":"] of the data URL is directly followed by [";"],
    the conversion fails with the malformed-input error, whatever comes
    after, a later [":"]...[";"] token included. *)
Theorem empty_first_token_is_malformed pre rest :
  contains ":" pre = false ->
  convertDataUrlToGeminiPart (pre ++ ":;" ++ rest)
  = Rejected (ErrorObj "Invalid data URL").
Proof.
  intros Hcolon. unfold convertDataUrlToGeminiPart.
  destruct (contains "," pre) eqn:Hcomma.
  - destruct (contains_first _ _ Hcomma) as (a & b & -> & Ha).
    rewrite contains_app in Hcolon. apply orb_false_iff in Hcolon as [Hcolon _].
    rewrite string_app_assoc.
    change (String "," b ++ ":;" ++ rest) with (String "," (b ++ ":;" ++ rest)).
    rewrite split_app by assumption.
    change ((a :: _) !! 0%nat) with (Some a). cbv beta iota zeta.
    now rewrite (match_no_colon _ Hcolon).
  - destruct (split "," rest) as [|r0 rt] eqn:Er.
    { exfalso. eapply split_not_nil; eassumption. }
    assert (E : split "," (":;" ++ rest) = (":;" ++ r0) :: rt).
    { change (":;" ++ rest) with (String ":" (String ";" rest)).
      cbn [split]. rewrite Er. reflexivity. }
    rewrite (split_app_nosep _ _ _ _ _ Hcomma E).
    change ((_ :: rt) !! 0%nat) with (Some (pre ++ ":;" ++ r0)).
    cbv beta iota zeta.
    change (pre ++ ":;" ++ r0) with (pre ++ ":" ++ "" ++ ";" ++ r0).
    rewrite match_complete by (assumption || reflexivity). reflexivity.
Qed.

Lemma empty_first_token_witness :
  convertDataUrlToGeminiPart ("data" ++ ":;" ++ "x:image/png;base64,AAAA")
  = Rejected (ErrorObj "Invalid data URL").
Proof.
  apply (empty_first_token_is_malformed "data" "x:image/png;base64,AAAA").
  reflexivity.
Defined.

(** X8: module initialisation succeeds exactly when the environment holds
    a non-empty [API_KEY], and the client is then built from that key; an
    empty key is refused like a missing one. *)
Theorem init_needs_non_empty_key (env : gmap string string) ai :
  init env = Resolved ai <->
  exists key, env !! "API_KEY" = Some key /\ key <> "" /\ ai = {| apiKey := key |}.
Proof.
  unfold init. split.
  - destruct (env !! "API_KEY") as [[|c rest]|]; try discriminate.
    intros E. injection E as <-. exists (String c rest).
    repeat split. discriminate.
  - intros (key & -> & Hk & ->). destruct key; [congruence|reflexivity].
Qed.

(** X9: only the first candidate of the response is looked at: candidates
    after it, whatever they carry, do not change the outcome of the run. *)
Theorem only_first_candidate_counts
    ai remote remote' characterImage productImage first others others' text :
  (forall req,
     remote ai req
     = Resolved {| Response.candidates := Some (first :: others);
                   Response.text := text |}) ->
  (forall req,
     remote' ai req
     = Resolved {| Response.candidates := Some (first :: others');
                   Response.text := text |}) ->
  run remote (generateProductPlacementImage ai characterImage productImage)
  = run remote' (generateProductPlacementImage ai characterImage productImage).
Proof.
  intros Hr Hr'.
  destruct (convert_cases (base64Url characterImage)) as [Ec|(mc & dc & _ & _ & Ec)].
  { now rewrite !(run_character_rejected _ _ _ _ _ Ec), !run_onCaught. }
  destruct (convert_cases (base64Url productImage)) as [Ep|(mp & dp & _ & _ & Ep)].
  { now rewrite !(run_product_rejected _ _ _ _ _ _ Ec Ep), !run_onCaught. }
  set (r := {| Response.candidates := Some (first :: others); Response.text := text |}).
  set (r' := {| Response.candidates := Some (first :: others'); Response.text := text |}).
  assert (Eparts : responseParts r = responseParts r') by reflexivity.
  destruct (firstInlineData (responseParts r)) as [data|] eqn:Ed.
  { rewrite (run_image _ _ _ _ _ _ Ec Ep r data (Hr _) Ed).
    rewrite Eparts in Ed.
    now rewrite (run_image _ _ _ _ _ _ Ec Ep r' data (Hr' _) Ed). }
  pose proof Ed as Ed'. rewrite Eparts in Ed'.
  destruct (trim <$> text) as [[|c rest]|] eqn:Et.
  - rewrite (run_empty _ _ _ _ _ _ Ec Ep r (Hr _) Ed) by (cbn; now rewrite Et).
    now rewrite (run_empty _ _ _ _ _ _ Ec Ep r' (Hr' _) Ed') by (cbn; now rewrite Et).
  - rewrite (run_refusal _ _ _ _ _ _ Ec Ep r c rest (Hr _) Ed Et).
    now rewrite (run_refusal _ _ _ _ _ _ Ec Ep r' c rest (Hr' _) Ed' Et).
  - rewrite (run_empty _ _ _ _ _ _ Ec Ep r (Hr _) Ed) by (cbn; now rewrite Et).
    now rewrite (run_empty _ _ _ _ _ _ Ec Ep r' (Hr' _) Ed') by (cbn; now rewrite Et).
Qed.

Lemma only_first_candidate_witness :
  run (Samples.always
         (Resolved {| Response.candidates :=
                        Some [ {| Candidate.content := None |};
                               {| Candidate.content :=
                                    Some {| Content.parts :=
                                              Some [imagePart (Some "image/png") (Some "AAAA")] |} |} ];
                      Response.text := None |}))
    (generateProductPlacementImage Samples.ai Samples.character Samples.product)
  = run (Samples.always
           (Resolved {| Response.candidates := Some [ {| Candidate.content := None |} ];
                        Response.text := None |}))
      (generateProductPlacementImage Samples.ai Samples.character Samples.product).
Proof.
  apply (only_first_candidate_counts Samples.ai _ _ Samples.character Samples.product
           {| Candidate.content := None |}
           [ {| Candidate.content :=
                  Some {| Content.parts :=
                            Some [imagePart (Some "image/png") (Some "AAAA")] |} |} ]
           [] None); intros req; reflexivity.
Defined.

End ClientExtras.

(** * More about the uploader *)

Module UploaderExtras.
Import Js Uploader.

(** X10: the preview and the owner stay in step: an action either leaves
    the preview as it was and calls the owner not at all, or calls the
    owner exactly once, and the data URL of the value it passes is the new
    preview; the value has no data URL when it is [null], and also when it
    is the file of a failed read, which is handed over with a [null] data
    URL. *)
Theorem owner_is_told_what_the_preview_shows a st st' calls :
  step a st = Some (st', calls) ->
  (calls = [] /\ imagePreview st' = imagePreview st) \/
  (exists v, calls = [v] /\ v ≫= Loaded.base64Url = imagePreview st').
Proof.
  destruct a as [files|i ok|e]; simpl.
  - destruct (fileInputRef st); [|discriminate].
    unfold handleFileChange.
    destruct (firstFile files) as [f|];
      [destruct (startsWith "image/" (File.type f))|];
      intros E; injection E as <- <-; [left|right; exists None..]; split; reflexivity.
  - destruct (reading st !! i) as [f|]; [|discriminate].
    intros E. injection E as <- <-. right. eexists; split; reflexivity.
  - destruct (truthy (imagePreview st)); [|discriminate].
    intros E. injection E as <- <-. right. exists None. split; reflexivity.
Qed.

Lemma owner_is_told_witness :
  ([Some {| Loaded.file := Samples.png; Loaded.base64Url := None |}] = []
   /\ None = Some (readAsDataURL UploaderSamples.blank)) \/
  (exists v,
     [Some {| Loaded.file := Samples.png; Loaded.base64Url := None |}] = [v]
     /\ v ≫= Loaded.base64Url = None).
Proof.
  apply (owner_is_told_what_the_preview_shows (LoadEnd 0 false)
           {| imagePreview := Some (readAsDataURL UploaderSamples.blank);
              fileInputRef := Some {| value := fakepath Samples.png |};
              reading := [Samples.png] |}
           {| imagePreview := None;
              fileInputRef := Some {| value := fakepath Samples.png |};
              reading := [] |}).
  reflexivity.
Defined.

(** Every read in flight, and the preview, come from a file declared as an
    image. *)
Lemma reachable_images st :
  Reachable st ->
  Forall (fun f => startsWith "image/" (File.type f) = true) (reading st)
  /\ forall url, imagePreview st = Some url ->
       exists f, startsWith "image/" (File.type f) = true /\ url = readAsDataURL f.
Proof.
  induction 1 as [|a st st' ns _ [IHr IHp] Hstep].
  - split; [constructor|discriminate].
  - destruct a as [files|i ok|e]; simpl in Hstep.
    + destruct (fileInputRef st); [|discriminate].
      unfold handleFileChange in Hstep.
      destruct (firstFile files) as [f|];
        [destruct (startsWith "image/" (File.type f)) eqn:Ef|];
        injection Hstep as <- _; simpl; (split; [|assumption || discriminate]);
        try assumption.
      apply Forall_app_2; [assumption|]. repeat constructor. exact Ef.
    + destruct (reading st !! i) as [f|] eqn:Ei; [|discriminate].
      injection Hstep as <- _. simpl. split; [now apply Forall_delete|].
      destruct ok; [|discriminate].
      intros url E. injection E as <-. exists f. split; [|reflexivity].
      exact (Forall_lookup_1 _ _ _ _ IHr Ei).
    + destruct (truthy (imagePreview st)); [|discriminate].
      injection Hstep as <- _. simpl. split; [assumption|discriminate].
Qed.

(** X11: in every state the mounted uploader can reach, a preview that is
    shown is the data URL of a file whose declared type starts with
    ["image/"]; no other file ever gets into the preview. *)
Theorem preview_shows_an_accepted_image st url :
  Reachable st -> imagePreview st = Some url ->
  exists f, startsWith "image/" (File.type f) = true /\ url = readAsDataURL f.
Proof. intros Hr. now apply reachable_images. Qed.

Lemma preview_shows_witness :
  exists f, startsWith "image/" (File.type f) = true
            /\ readAsDataURL Samples.png = readAsDataURL f.
Proof.
  apply (preview_shows_an_accepted_image UploaderSamples.previewing).
  - exact UploaderFacts.previewing_reachable.
  - reflexivity.
Defined.

(** X12: clearing does not cancel a read in flight: the clear empties the
    preview and tells the owner [null], and when the read then ends,
    [onloadend] still runs: it sets the preview to the read's result and
    hands the owner the file of that read with that result as its data
    URL, the file's data URL after a successful read and [null] after a
    failed one. *)
Theorem clear_does_not_cancel_reads st e i ok f :
  truthy (imagePreview st) = true -> reading st !! i = Some f ->
  exists cleared restored,
    step (ClearClick e) st = Some (cleared, [None])
    /\ imagePreview cleared = None
    /\ step (LoadEnd i ok) cleared
       = Some (restored,
               [Some {| Loaded.file := f; Loaded.base64Url := readerResult ok f |}])
    /\ imagePreview restored = readerResult ok f.
Proof.
  intros Hp Hr.
  exists (fst (fst (handleClear e st))).
  exists (fst (onloadend f (readerResult ok f)
                 {| imagePreview := None;
                    fileInputRef := fileInputRef (fst (fst (handleClear e st)));
                    reading := delete i (reading st) |})).
  split; [cbn [step]; now rewrite Hp|]. split; [reflexivity|].
  split; [|reflexivity].
  cbn [step handleClear fst reading imagePreview]. now rewrite Hr.
Qed.

Lemma clear_does_not_cancel_witness :
  exists cleared restored,
    step (ClearClick UploaderSamples.click)
      {| imagePreview := Some (readAsDataURL Samples.png);
         fileInputRef := Some {| value := fakepath UploaderSamples.blank |};
         reading := [UploaderSamples.blank] |}
    = Some (cleared, [None])
    /\ imagePreview cleared = None
    /\ step (LoadEnd 0 true) cleared
       = Some (restored,
               [Some {| Loaded.file := UploaderSamples.blank;
                        Loaded.base64Url := readerResult true UploaderSamples.blank |}])
    /\ imagePreview restored = readerResult true UploaderSamples.blank.
Proof.
  apply (clear_does_not_cancel_reads
           {| imagePreview := Some (readAsDataURL Samples.png);
              fileInputRef := Some {| value := fakepath UploaderSamples.blank |};
              reading := [UploaderSamples.blank] |}
           UploaderSamples.click 0 true UploaderSamples.blank); reflexivity.
Defined.

(** X13: the owner hears of an accepted image when its read ends, not when
    it is selected: the selection changes neither the preview nor the
    owner's value; the end of the read sets the preview to the read's
    result and calls the owner once with the file and that result as its
    data URL, the file's data URL after a successful read and [null] after
    a failed one. *)
Theorem selection_is_delivered_when_the_read_ends st el files f ok :
  fileInputRef st = Some el ->
  firstFile files = Some f -> startsWith "image/" (File.type f) = true ->
  exists selecting loaded,
    step (Change files) st = Some (selecting, [])
    /\ imagePreview selecting = imagePreview st
    /\ step (LoadEnd (length (reading st)) ok) selecting
       = Some (loaded,
               [Some {| Loaded.file := f; Loaded.base64Url := readerResult ok f |}])
    /\ imagePreview loaded = readerResult ok f
    /\ reading loaded = reading st
    /\ fileInputRef loaded = Some {| value := fakepath f |}.
Proof.
  intros Hel Hf Ht.
  exists {| imagePreview := imagePreview st;
            fileInputRef := Some (selected files);
            reading := (reading st ++ [f])%list |}.
  exists {| imagePreview := readerResult ok f;
            fileInputRef := Some (selected files);
            reading := reading st |}.
  split.
  { cbn [step]. rewrite Hel. unfold handleFileChange. now rewrite Hf, Ht. }
  split; [reflexivity|]. split.
  { cbn [step reading]. rewrite list_lookup_middle by reflexivity.
    unfold onloadend. cbn [reading imagePreview fileInputRef].
    now rewrite delete_middle, app_nil_r. }
  split; [reflexivity|]. split; [reflexivity|].
  cbn [fileInputRef]. unfold selected. now rewrite Hf.
Qed.

Lemma selection_is_delivered_witness :
  exists selecting loaded,
    step (Change (Some [Samples.png])) mounted = Some (selecting, [])
    /\ imagePreview selecting = imagePreview mounted
    /\ step (LoadEnd (length (reading mounted)) false) selecting
       = Some (loaded,
               [Some {| Loaded.file := Samples.png;
                        Loaded.base64Url := readerResult false Samples.png |}])
    /\ imagePreview loaded = readerResult false Samples.png
    /\ reading loaded = reading mounted
    /\ fileInputRef loaded = Some {| value := fakepath Samples.png |}.
Proof.
  apply (selection_is_delivered_when_the_read_ends mounted {| value := "" |}
           (Some [Samples.png]) Samples.png false); reflexivity.
Defined.

End UploaderExtras.

(** * The page *)

Module AppFacts.
Import Js DataUrl AsyncOps GeminiService RunView App.
Import JsFacts GeminiFacts GenerateFacts Base64Facts ClientExtras.

Lemma play_reachable ai actions pg pg' :
  Reachable ai pg -> play ai actions pg = Some pg' -> Reachable ai pg'.
Proof.
  revert pg. induction actions as [|a rest IH]; simpl; intros pg Hr E.
  - now injection E as <-.
  - destruct (step ai a pg) as [pg1|] eqn:Es; [|discriminate].
    eapply IH; [|exact E]. eapply reach_step; eassumption.
Qed.

Lemma ready_reachable : Reachable Samples.ai AppSamples.ready.
Proof. apply (play_reachable _ AppSamples.upload opened); [constructor|reflexivity]. Qed.

Lemma waiting_reachable : Reachable Samples.ai AppSamples.waiting.
Proof. apply (reach_step _ ClickGenerate _ _ ready_reachable). reflexivity. Qed.

Lemma shown_reachable : Reachable Samples.ai AppSamples.shown.
Proof.
  apply (reach_step _ (Settle 0 (Samples.always (Resolved Samples.twoImages))) _ _
           waiting_reachable).
  reflexivity.
Qed.

(** The calls an uploader can make in one action. *)
Lemma uploader_step_calls ua u u' calls :
  Uploader.Reachable u -> Uploader.step ua u = Some (u', calls) ->
  (calls = [] /\ Uploader.imagePreview u' = Uploader.imagePreview u) \/
  (calls = [None] /\ Uploader.imagePreview u' = None) \/
  (exists f ok, startsWith "image/" (File.type f) = true /\
                calls = [Some {| Loaded.file := f;
                                 Loaded.base64Url := Uploader.readerResult ok f |}] /\
                Uploader.imagePreview u' = Uploader.readerResult ok f).
Proof.
  intros Hr. destruct (UploaderExtras.reachable_images u Hr) as [Hreading _].
  destruct ua as [files|i ok|e]; simpl.
  - destruct (Uploader.fileInputRef u); [|discriminate].
    unfold Uploader.handleFileChange.
    destruct (Uploader.firstFile files) as [f|];
      [destruct (startsWith "image/" (File.type f))|];
      intros E; injection E as <- <-; [left|right; left..]; split; reflexivity.
  - destruct (Uploader.reading u !! i) as [f|] eqn:Ei; [|discriminate].
    intros E. injection E as <- <-. right; right. exists f, ok.
    split; [exact (Forall_lookup_1 _ _ _ _ Hreading Ei)|]. split; reflexivity.
  - destruct (truthy (Uploader.imagePreview u)); [|discriminate].
    intros E. injection E as <- <-. right; left. split; reflexivity.
Qed.

Lemma uploaders_reachable ai pg :
  Reachable ai pg ->
  Uploader.Reachable (characterUploader pg) /\ Uploader.Reachable (productUploader pg).
Proof.
  induction 1 as [|a pg pg' _ [IHc IHp] Hstep]; [split; constructor|].
  destruct a as [ua|ua| |i remote| ]; simpl in Hstep.
  - destruct (Uploader.step ua (characterUploader pg)) as [[u calls]|] eqn:Eu;
      [|discriminate]. injection Hstep as <-. simpl.
    split; [|assumption]. exact (Uploader.reach_step _ _ _ _ IHc Eu).
  - destruct (Uploader.step ua (productUploader pg)) as [[u calls]|] eqn:Eu;
      [|discriminate]. injection Hstep as <-. simpl.
    split; [assumption|]. exact (Uploader.reach_step _ _ _ _ IHp Eu).
  - destruct (canGenerate (app pg)); [|discriminate].
    destruct (handleGenerate ai (app pg)). injection Hstep as <-. now split.
  - destruct (pending pg !! i); [|discriminate]. injection Hstep as <-. now split.
  - destruct (isLoading (app pg)); [|discriminate]. injection Hstep as <-. now split.
Qed.

(** What the click on the button does when it is enabled. *)
Lemma click_enabled ai st :
  canGenerate st = true ->
  exists character product,
    characterImage st = Some character /\ productImage st = Some product /\
    isLoading st = false /\
    handleGenerate ai st
    = (setLoadingMessage (loadingMessages !! 0%nat)
         (setGeneratedImage None (setError None (setIsLoading true st))),
       Some (AtRuntime.generateProductPlacementImage ai character product)).
Proof.
  unfold canGenerate, handleGenerate.
  destruct (characterImage st) as [c|]; [|discriminate].
  destruct (productImage st) as [p|]; [|discriminate].
  intros H. apply negb_true_iff in H. exists c, p. repeat split. exact H.
Qed.

(** What the settling leaves of the fields it does not set. *)
Lemma settled_keeps o st :
  characterImage (fst (handleGenerateSettled o st)) = characterImage st /\
  productImage (fst (handleGenerateSettled o st)) = productImage st /\
  loadingMessage (fst (handleGenerateSettled o st)) = loadingMessage st /\
  isLoading (fst (handleGenerateSettled o st)) = false.
Proof. destruct o as [[[|c rest]|]|[m|v]]; repeat split. Qed.

(** The values the owner holds come from the uploaders: each is the file
    of a read with the result of that read as its data URL, and that data
    URL is what the uploader previews. *)
Lemma reachable_page_images ai pg :
  Reachable ai pg ->
  (forall img, characterImage (app pg) = Some img ->
     exists f ok, startsWith "image/" (File.type f) = true /\
                  img = {| Loaded.file := f;
                           Loaded.base64Url := Uploader.readerResult ok f |}) /\
  (forall img, productImage (app pg) = Some img ->
     exists f ok, startsWith "image/" (File.type f) = true /\
                  img = {| Loaded.file := f;
                           Loaded.base64Url := Uploader.readerResult ok f |}) /\
  characterImage (app pg) ≫= Loaded.base64Url
  = Uploader.imagePreview (characterUploader pg) /\
  productImage (app pg) ≫= Loaded.base64Url
  = Uploader.imagePreview (productUploader pg).
Proof.
  induction 1 as [|a pg pg' Hr (IHc & IHp & IHsc & IHsp) Hstep].
  { repeat split; discriminate. }
  destruct (uploaders_reachable ai pg Hr) as [Huc Hup].
  destruct a as [ua|ua| |i remote| ]; simpl in Hstep.
  - destruct (Uploader.step ua (characterUploader pg)) as [[u calls]|] eqn:Eu;
      [|discriminate]. injection Hstep as <-.
    destruct (uploader_step_calls _ _ _ _ Huc Eu)
      as [[-> Ep]|[[-> Ep]|(f & ok & Hf & -> & Ep)]]; cbn; rewrite Ep.
    + repeat split; assumption.
    + repeat split; try assumption. discriminate.
    + repeat split; try assumption.
      intros img E. injection E as <-. exists f, ok. now split.
  - destruct (Uploader.step ua (productUploader pg)) as [[u calls]|] eqn:Eu;
      [|discriminate]. injection Hstep as <-.
    destruct (uploader_step_calls _ _ _ _ Hup Eu)
      as [[-> Ep]|[[-> Ep]|(f & ok & Hf & -> & Ep)]]; cbn; rewrite Ep.
    + repeat split; assumption.
    + repeat split; try assumption. discriminate.
    + repeat split; try assumption.
      intros img E. injection E as <-. exists f, ok. now split.
  - destruct (canGenerate (app pg)) eqn:Ec; [|discriminate].
    destruct (click_enabled ai _ Ec) as (c & p & _ & _ & _ & Eh).
    rewrite Eh in Hstep. injection Hstep as <-. cbn. repeat split; assumption.
  - destruct (pending pg !! i); [|discriminate]. injection Hstep as <-. cbn.
    destruct (settled_keeps (fst (run remote a)) (app pg)) as (-> & -> & _).
    repeat split; assumption.
  - destruct (isLoading (app pg)); [|discriminate]. injection Hstep as <-. cbn.
    repeat split; assumption.
Qed.

Lemma deliver_character_keeps calls st :
  generatedImage (deliver setCharacterImage calls st) = generatedImage st /\
  isLoading (deliver setCharacterImage calls st) = isLoading st /\
  error (deliver setCharacterImage calls st) = error st /\
  loadingMessage (deliver setCharacterImage calls st) = loadingMessage st.
Proof.
  revert st. induction calls as [|v calls IH]; intros st; [repeat split|].
  change (deliver setCharacterImage (v :: calls) st)
    with (deliver setCharacterImage calls (setCharacterImage v st)).
  exact (IH (setCharacterImage v st)).
Qed.

Lemma deliver_product_keeps calls st :
  generatedImage (deliver setProductImage calls st) = generatedImage st /\
  isLoading (deliver setProductImage calls st) = isLoading st /\
  error (deliver setProductImage calls st) = error st /\
  loadingMessage (deliver setProductImage calls st) = loadingMessage st.
Proof.
  revert st. induction calls as [|v calls IH]; intros st; [repeat split|].
  change (deliver setProductImage (v :: calls) st)
    with (deliver setProductImage calls (setProductImage v st)).
  exact (IH (setProductImage v st)).
Qed.

(** With both data URLs present the call is the typed one. *)
Lemma runtime_typed ai character product characterUrl productUrl :
  Loaded.base64Url character = Some characterUrl ->
  Loaded.base64Url product = Some productUrl ->
  AtRuntime.generateProductPlacementImage ai character product
  = generateProductPlacementImage ai
      {| file := Loaded.file character; base64Url := characterUrl |}
      {| file := Loaded.file product; base64Url := productUrl |}.
Proof.
  intros Ec Ep.
  unfold AtRuntime.generateProductPlacementImage, generateProductPlacementImage.
  now rewrite Ec, Ep.
Qed.

(** A run on what the page holds has one of the shapes of a typed run, or
    it is the run that a [null] data URL cuts short. *)
Lemma runtime_run_shape ai remote character product :
  RunShape ai remote
    (run remote (AtRuntime.generateProductPlacementImage ai character product))
  \/ exists message,
       run remote (AtRuntime.generateProductPlacementImage ai character product)
       = (Rejected (ErrorObj ("Failed to generate image: " ++ message)),
          [caughtLine (ErrorObj message)]).
Proof.
  destruct (Loaded.base64Url character) as [uc|] eqn:Ec.
  2:{ right. eexists. unfold AtRuntime.generateProductPlacementImage.
      rewrite Ec. reflexivity. }
  destruct (convert_cases uc) as [Hc|(mc & dc & _ & _ & Hc)].
  { left. unfold AtRuntime.generateProductPlacementImage, mbind, Async_bind.
    rewrite Ec. cbn [AtRuntime.convertDataUrlToGeminiPart]. rewrite Hc.
    change (RunShape ai remote (run remote (onCaught (ErrorObj "Invalid data URL")))).
    rewrite (run_onCaught remote). constructor. }
  destruct (Loaded.base64Url product) as [up|] eqn:Ep.
  - left. rewrite (runtime_typed _ _ _ _ _ Ec Ep). apply run_shape.
  - right. eexists. unfold AtRuntime.generateProductPlacementImage, mbind, Async_bind.
    rewrite Ec, Ep. cbn [AtRuntime.convertDataUrlToGeminiPart]. rewrite Hc.
    reflexivity.
Qed.

(** What a settled call leaves on a page that showed neither image nor
    error. *)
Lemma settled_shows ai remote character product st :
  generatedImage st = None -> error st = None ->
  let st' := fst (handleGenerateSettled
                    (fst (run remote
                            (AtRuntime.generateProductPlacementImage ai character product)))
                    st) in
  ((exists data, data <> "" /\
                 generatedImage st' = Some ("data:image/png;base64," ++ data))
   /\ error st' = None)
  \/ (generatedImage st' = None /\
      (error st'
       = Some "The model did not return an image. Please try a different prompt or images."
       \/ error st' = Some "An unknown error occurred during image generation."
       \/ exists cause, error st' = Some ("Failed to generate image: " ++ cause))).
Proof.
  intros Hg He.
  destruct (runtime_run_shape ai remote character product) as [Hs|(message & ->)].
  2:{ cbn. right. split; [assumption|]. right; right. now exists message. }
  destruct Hs as [|req m _|req v _|req data Hd|req t _|req]; cbn.
  - right. split; [assumption|]. right; right. now exists "Invalid data URL".
  - right. split; [assumption|]. right; right. now exists m.
  - right. split; [assumption|]. right; left. reflexivity.
  - left. destruct data as [|c rest]; [congruence|]. cbn.
    split; [|assumption]. exists (String c rest). split; [discriminate|reflexivity].
  - right. split; [assumption|]. right; right. now exists ("Model response: " ++ t).
  - right. split; [assumption|]. left. reflexivity.
Qed.

(** The generation state of a reachable page. *)
Lemma reachable_generation ai pg :
  Reachable ai pg ->
  ((pending pg = [] /\ isLoading (app pg) = false) \/
   (exists character product,
      pending pg = [AtRuntime.generateProductPlacementImage ai character product] /\
      isLoading (app pg) = true /\
      generatedImage (app pg) = None /\ error (app pg) = None))
  /\ (generatedImage (app pg) = None \/
      ((exists data, data <> "" /\
                     generatedImage (app pg) = Some ("data:image/png;base64," ++ data))
       /\ error (app pg) = None))
  /\ (error (app pg) = None
      \/ error (app pg)
         = Some "The model did not return an image. Please try a different prompt or images."
      \/ error (app pg) = Some "An unknown error occurred during image generation."
      \/ exists cause, error (app pg) = Some ("Failed to generate image: " ++ cause)).
Proof.
  induction 1 as [|a pg pg' Hr (IHp & IHg & IHe) Hstep].
  { split; [left; split; reflexivity|]. split; left; reflexivity. }
  destruct a as [ua|ua| |i remote| ]; simpl in Hstep.
  - destruct (Uploader.step ua (characterUploader pg)) as [[u calls]|]; [|discriminate].
    injection Hstep as <-. cbn [app pending].
    destruct (deliver_character_keeps calls (app pg)) as (-> & -> & -> & _).
    exact (conj IHp (conj IHg IHe)).
  - destruct (Uploader.step ua (productUploader pg)) as [[u calls]|]; [|discriminate].
    injection Hstep as <-. cbn [app pending].
    destruct (deliver_product_keeps calls (app pg)) as (-> & -> & -> & _).
    exact (conj IHp (conj IHg IHe)).
  - destruct (canGenerate (app pg)) eqn:Ec; [|discriminate].
    destruct (click_enabled ai _ Ec) as (c & p & _ & _ & El & Eh).
    rewrite Eh in Hstep. injection Hstep as <-. cbn.
    destruct IHp as [[-> _]|(? & ? & _ & El' & _)]; [|congruence].
    split; [right; exists c, p; repeat split|]. split; left; reflexivity.
  - destruct (pending pg !! i) as [call|] eqn:Ei; [|discriminate].
    injection Hstep as <-. cbn [app pending].
    destruct IHp as [[Ep _]|(c & p & Ep & _ & Hg & He)];
      [rewrite Ep in Ei; discriminate|].
    rewrite Ep in Ei |- *. destruct i as [|i]; [|discriminate].
    injection Ei as <-.
    destruct (settled_keeps
                (fst (run remote (AtRuntime.generateProductPlacementImage ai c p)))
                (app pg)) as (_ & _ & _ & El).
    split; [left; split; [reflexivity|exact El]|].
    destruct (settled_shows ai remote c p (app pg) Hg He) as [[Hi Hn]|[Hi Hm]].
    + split; [right; split; assumption|]. left. exact Hn.
    + split; [left; exact Hi|]. right. exact Hm.
  - assert (El : isLoading (app pg) = true)
      by (destruct (isLoading (app pg)); [reflexivity|discriminate]).
    rewrite El in Hstep. injection Hstep as <-. cbn.
    exact (conj IHp (conj IHg IHe)).
Qed.

Lemma next_at i :
  i < 5 -> nextLoadingMessage (loadingMessages !! i) = loadingMessages !! (S i mod 5).
Proof. intros H. do 5 (destruct i as [|i]; [reflexivity|]). lia. Qed.

Lemma reachable_message ai pg :
  Reachable ai pg ->
  exists i, i < 5 /\ loadingMessage (app pg) = loadingMessages !! i.
Proof.
  induction 1 as [|a pg pg' Hr (n & Hn & IH) Hstep].
  { exists 0. split; [lia|reflexivity]. }
  destruct a as [ua|ua| |i remote| ]; simpl in Hstep.
  - destruct (Uploader.step ua (characterUploader pg)) as [[u calls]|]; [|discriminate].
    injection Hstep as <-. cbn [app].
    destruct (deliver_character_keeps calls (app pg)) as (_ & _ & _ & ->). eauto.
  - destruct (Uploader.step ua (productUploader pg)) as [[u calls]|]; [|discriminate].
    injection Hstep as <-. cbn [app].
    destruct (deliver_product_keeps calls (app pg)) as (_ & _ & _ & ->). eauto.
  - destruct (canGenerate (app pg)) eqn:Ec; [|discriminate].
    destruct (click_enabled ai _ Ec) as (c & p & _ & _ & _ & Eh).
    rewrite Eh in Hstep. injection Hstep as <-. exists 0. split; [lia|reflexivity].
  - destruct (pending pg !! i) as [call|]; [|discriminate].
    injection Hstep as <-. cbn [app].
    destruct (settled_keeps (fst (run remote call)) (app pg)) as (_ & _ & -> & _). eauto.
  - destruct (isLoading (app pg)); [|discriminate]. injection Hstep as <-.
    exists (S n mod 5). split; [apply Nat.mod_upper_bound; lia|].
    cbn [app tick setLoadingMessage loadingMessage]. rewrite IH. now apply next_at.
Qed.

(** The data URL the browser makes of a non-empty file with a plain image
    type converts to that type and the base64 of the file's bytes. *)
Lemma convert_readAsDataURL f :
  startsWith "image/" (File.type f) = true -> plainToken (File.type f) = true ->
  File.bytes f <> [] ->
  convertDataUrlToGeminiPart (Uploader.readAsDataURL f)
  = Resolved (imagePart (Some (File.type f)) (Some (Base64.encode (File.bytes f)))).
Proof.
  intros Himg Hplain Hbytes.
  change (Uploader.readAsDataURL f)
    with ("data" ++ ":" ++ File.type f ++ ";" ++ "base64" ++ ","
          ++ Base64.encode (File.bytes f)).
  apply convert_wellformed; try reflexivity; try assumption.
  - eapply UploaderFacts.startsWith_not_empty; [exact Himg|discriminate].
  - now apply encode_not_empty.
  - apply encode_no_comma.
Qed.

(** A run whose inputs both convert starts with the network call. *)
Lemma run_starts_with_call ai remote character product characterPart productPart :
  convertDataUrlToGeminiPart (base64Url character) = Resolved characterPart ->
  convertDataUrlToGeminiPart (base64Url product) = Resolved productPart ->
  exists outcome later,
    run remote (generateProductPlacementImage ai character product)
    = (outcome, NetworkCall ai (request characterPart productPart) :: later).
Proof.
  intros Hc Hp.
  destruct (remote ai (request characterPart productPart)) as [response|e] eqn:Er.
  - destruct (firstInlineData (responseParts response)) as [data|] eqn:Ed.
    { eexists _, _. now rewrite (run_image _ _ _ _ _ _ Hc Hp _ _ Er Ed). }
    destruct (trim <$> Response.text response) as [[|c rest]|] eqn:Et.
    + eexists _, _. rewrite (run_empty _ _ _ _ _ _ Hc Hp _ Er Ed); [|now rewrite Et].
      reflexivity.
    + eexists _, _. now rewrite (run_refusal _ _ _ _ _ _ Hc Hp _ _ _ Er Ed Et).
    + eexists _, _. rewrite (run_empty _ _ _ _ _ _ Hc Hp _ Er Ed); [|now rewrite Et].
      reflexivity.
  - eexists _, _. now rewrite (run_remote_rejected _ _ _ _ _ _ Hc Hp _ Er).
Qed.

(** X14: on every page that can be reached, at most one call of the client
    is in flight, and the page is loading exactly while one is: the
    disabled button keeps a second request from starting. *)
Theorem at_most_one_call_in_flight ai pg :
  Reachable ai pg ->
  length (pending pg) <= 1 /\ (isLoading (app pg) = true <-> pending pg <> []).
Proof.
  intros Hr.
  destruct (reachable_generation ai pg Hr) as [[[-> El]|(c & p & -> & El & _)] _].
  - split; [simpl; lia|]. rewrite El. split; [discriminate|congruence].
  - split; [simpl; lia|]. rewrite El. split; [discriminate|reflexivity].
Qed.

Lemma one_call_in_flight_witness :
  length (pending AppSamples.waiting) <= 1
  /\ (isLoading (app AppSamples.waiting) = true <-> pending AppSamples.waiting <> []).
Proof.
  apply (at_most_one_call_in_flight Samples.ai AppSamples.waiting).
  exact waiting_reachable.
Defined.

(** X15: on every page that can be reached, an image the page holds is a
    file declared as an image together with the result of its read as data
    URL, the file's data URL or, after a failed read, [null]; and the data
    URL of what the page holds in a slot is what the uploader of that slot
    previews (nothing when the slot is empty or its data URL is [null]). *)
Theorem held_images_come_from_the_uploaders ai pg :
  Reachable ai pg ->
  (forall img, characterImage (app pg) = Some img ->
     exists f ok, startsWith "image/" (File.type f) = true /\
                  img = {| Loaded.file := f;
                           Loaded.base64Url := Uploader.readerResult ok f |}) /\
  (forall img, productImage (app pg) = Some img ->
     exists f ok, startsWith "image/" (File.type f) = true /\
                  img = {| Loaded.file := f;
                           Loaded.base64Url := Uploader.readerResult ok f |}) /\
  characterImage (app pg) ≫= Loaded.base64Url
  = Uploader.imagePreview (characterUploader pg) /\
  productImage (app pg) ≫= Loaded.base64Url
  = Uploader.imagePreview (productUploader pg).
Proof. apply reachable_page_images. Qed.

Lemma held_images_witness :
  (forall img, characterImage (app AppSamples.ready) = Some img ->
     exists f ok, startsWith "image/" (File.type f) = true /\
                  img = {| Loaded.file := f;
                           Loaded.base64Url := Uploader.readerResult ok f |}) /\
  (forall img, productImage (app AppSamples.ready) = Some img ->
     exists f ok, startsWith "image/" (File.type f) = true /\
                  img = {| Loaded.file := f;
                           Loaded.base64Url := Uploader.readerResult ok f |}) /\
  characterImage (app AppSamples.ready) ≫= Loaded.base64Url
  = Uploader.imagePreview (characterUploader AppSamples.ready) /\
  productImage (app AppSamples.ready) ≫= Loaded.base64Url
  = Uploader.imagePreview (productUploader AppSamples.ready).
Proof.
  apply (held_images_come_from_the_uploaders Samples.ai AppSamples.ready).
  exact ready_reachable.
Defined.

(** X16: on every page that can be reached, a generated image that is
    shown is a PNG data URL with a non-empty payload, it is never shown
    together with an error, and while the page is loading neither an image
    nor an error is shown. *)
Theorem image_and_error_exclude_each_other ai pg :
  Reachable ai pg ->
  (forall shown, generatedImage (app pg) = Some shown ->
     (exists data, data <> "" /\ shown = "data:image/png;base64," ++ data)
     /\ error (app pg) = None)
  /\ (isLoading (app pg) = true ->
      generatedImage (app pg) = None /\ error (app pg) = None).
Proof.
  intros Hr. destruct (reachable_generation ai pg Hr) as (Hp & Hg & _). split.
  - intros shown E. destruct Hg as [Hg|[(data & Hd & Hg) He]]; [congruence|].
    rewrite Hg in E. injection E as <-. split; [eauto|exact He].
  - intros El. destruct Hp as [[_ El']|(_ & _ & _ & _ & Hg' & He')]; [congruence|].
    now split.
Qed.

Lemma image_and_error_witness :
  (forall shown, generatedImage (app AppSamples.shown) = Some shown ->
     (exists data, data <> "" /\ shown = "data:image/png;base64," ++ data)
     /\ error (app AppSamples.shown) = None)
  /\ (isLoading (app AppSamples.shown) = true ->
      generatedImage (app AppSamples.shown) = None /\ error (app AppSamples.shown) = None).
Proof.
  apply (image_and_error_exclude_each_other Samples.ai AppSamples.shown).
  exact shown_reachable.
Defined.

(** X17: two of the page's messages can never be shown: the button is
    disabled until both images are there, so [handleGenerate] never takes
    its first branch, and the client only throws [Error] objects, so the
    [catch] block never falls back to its own text. *)
Theorem two_messages_are_never_shown ai pg :
  Reachable ai pg ->
  error (app pg) <> Some "Please upload both a character and a product image."
  /\ error (app pg) <> Some "An unknown error occurred.".
Proof.
  intros Hr. destruct (reachable_generation ai pg Hr) as (_ & _ & He).
  assert (Hhead : forall cause rest c,
             "Failed to generate image: " ++ cause = String c rest -> c = "F"%char).
  { intros cause rest c E.
    change ("Failed to generate image: " ++ cause)
      with (String "F" ("ailed to generate image: " ++ cause)) in E.
    now injection E as <- _. }
  destruct He as [->|[->|[->|(cause & ->)]]]; split; try discriminate;
    intros E; injection E as E; apply Hhead in E; discriminate E.
Qed.

Lemma two_messages_witness :
  error (app AppSamples.shown)
  <> Some "Please upload both a character and a product image."
  /\ error (app AppSamples.shown) <> Some "An unknown error occurred.".
Proof.
  apply (two_messages_are_never_shown Samples.ai AppSamples.shown).
  exact shown_reachable.
Defined.

(** X18: the loading message is always one of the five of the list, never
    [undefined], on every page that can be reached. *)
Theorem loading_message_is_always_listed ai pg :
  Reachable ai pg ->
  exists i, i < length loadingMessages /\ loadingMessage (app pg) = loadingMessages !! i.
Proof. apply reachable_message. Qed.

Lemma loading_message_witness :
  exists i, i < length loadingMessages
            /\ loadingMessage (app AppSamples.waiting) = loadingMessages !! i.
Proof.
  apply (loading_message_is_always_listed Samples.ai AppSamples.waiting).
  exact waiting_reachable.
Defined.

(** X19: the interval walks through the list in order and starts over
    after the last message: after [k] firings from the first message, the
    message is the one at index [k mod 5]. *)
Theorem loading_messages_rotate k :
  Nat.iter k nextLoadingMessage (loadingMessages !! 0%nat)
  = loadingMessages !! (k mod 5).
Proof.
  induction k as [|k IH]; [reflexivity|].
  rewrite Nat.iter_succ, IH, next_at by (apply Nat.mod_upper_bound; lia).
  f_equal. change (S (k mod 5)) with (1 + k mod 5). change (S k) with (1 + k).
  now rewrite Nat.Div0.add_mod_idemp_r.
Qed.

(** X20: from a message that is not in the list, and from [undefined], the
    next message is the first of the list: [indexOf] gives -1 and the
    index wraps to 0. *)
Theorem unlisted_message_restarts_the_list (prev : option string) :
  (forall s, prev = Some s -> s ∉ loadingMessages) ->
  nextLoadingMessage prev = loadingMessages !! 0%nat.
Proof.
  intros H. destruct prev as [s|]; [|reflexivity].
  specialize (H s eq_refl). unfold nextLoadingMessage, indexOf, loadingMessages in *.
  cbn [indexOfFrom].
  repeat match goal with
         | |- context [String.eqb ?x s] =>
             destruct (String.eqb_spec x s) as [<-|_];
             [exfalso; apply H; repeat constructor|]
         end.
  reflexivity.
Qed.

Lemma unlisted_message_witness :
  nextLoadingMessage (Some "Done") = loadingMessages !! 0%nat.
Proof.
  apply (unlisted_message_restarts_the_list (Some "Done")).
  intros s E. injection E as <-. intros Hin.
  repeat (apply elem_of_cons in Hin as [Hin|Hin]; [discriminate Hin|]).
  now apply elem_of_nil in Hin.
Defined.

(** X21: what the model is sent is what was uploaded: on a page that can
    be reached and holds two images whose reads succeeded (their data URLs
    are not [null]), whose files are not empty and whose declared types
    have no [";"], [","] or line break, the call the button starts makes a
    network call with three parts: the character's declared type with the
    base64 encoding of its bytes, the product's declared type with the
    base64 encoding of its bytes, and the fixed instruction. *)
Theorem uploaded_files_reach_the_model ai pg remote character product :
  Reachable ai pg ->
  characterImage (app pg) = Some character -> productImage (app pg) = Some product ->
  Loaded.base64Url character <> None -> Loaded.base64Url product <> None ->
  File.bytes (Loaded.file character) <> [] ->
  plainToken (File.type (Loaded.file character)) = true ->
  File.bytes (Loaded.file product) <> [] ->
  plainToken (File.type (Loaded.file product)) = true ->
  exists outcome later,
    run remote (AtRuntime.generateProductPlacementImage ai character product)
    = (outcome,
       NetworkCall ai
         {| Request.model := "gemini-2.5-flash-image-preview";
            Request.contents :=
              {| Content.parts :=
                   Some [ {| Part.inlineData :=
                               Some {| Blob.data :=
                                         Some (Base64.encode
                                                 (File.bytes (Loaded.file character)));
                                       Blob.mimeType :=
                                         Some (File.type (Loaded.file character)) |};
                             Part.text := None |};
                          {| Part.inlineData :=
                               Some {| Blob.data :=
                                         Some (Base64.encode
                                                 (File.bytes (Loaded.file product)));
                                       Blob.mimeType :=
                                         Some (File.type (Loaded.file product)) |};
                             Part.text := None |};
                          {| Part.inlineData := None;
                             Part.text :=
                               Some "Analyze the first image (the character) and the second image (the product). Generate a new image where the character is naturally using or interacting with the product. The final output image MUST maintain the exact same aspect ratio and dimensions as the first (character) image. The art style should also match the character image." |} ] |};
            Request.config := {| Request.responseModalities := [IMAGE; TEXT] |} |}
         :: later).
Proof.
  intros Hr Ec Ep Hcu Hpu Hcb Hct Hpb Hpt.
  destruct (reachable_page_images ai pg Hr) as (Hc & Hp & _).
  destruct (Hc _ Ec) as (fc & okc & Hfc & ->). destruct (Hp _ Ep) as (fp & okp & Hfp & ->).
  cbn [Loaded.file Loaded.base64Url] in *.
  destruct okc; [|now contradiction Hcu]. destruct okp; [|now contradiction Hpu].
  rewrite (runtime_typed ai _ _ (Uploader.readAsDataURL fc) (Uploader.readAsDataURL fp))
    by reflexivity.
  cbn [Loaded.file].
  exact (run_starts_with_call ai remote
           {| file := fc; base64Url := Uploader.readAsDataURL fc |}
           {| file := fp; base64Url := Uploader.readAsDataURL fp |} _ _
           (convert_readAsDataURL fc Hfc Hct Hcb)
           (convert_readAsDataURL fp Hfp Hpt Hpb)).
Qed.

Lemma uploaded_files_witness :
  exists outcome later,
    run (Samples.always (Resolved Samples.silent))
      (AtRuntime.generateProductPlacementImage Samples.ai
         AppSamples.character AppSamples.product)
    = (outcome,
       NetworkCall Samples.ai
         {| Request.model := "gemini-2.5-flash-image-preview";
            Request.contents :=
              {| Content.parts :=
                   Some [ {| Part.inlineData :=
                               Some {| Blob.data :=
                                         Some (Base64.encode
                                                 (File.bytes (Loaded.file AppSamples.character)));
                                       Blob.mimeType :=
                                         Some (File.type (Loaded.file AppSamples.character)) |};
                             Part.text := None |};
                          {| Part.inlineData :=
                               Some {| Blob.data :=
                                         Some (Base64.encode
                                                 (File.bytes (Loaded.file AppSamples.product)));
                                       Blob.mimeType :=
                                         Some (File.type (Loaded.file AppSamples.product)) |};
                             Part.text := None |};
                          {| Part.inlineData := None;
                             Part.text :=
                               Some "Analyze the first image (the character) and the second image (the product). Generate a new image where the character is naturally using or interacting with the product. The final output image MUST maintain the exact same aspect ratio and dimensions as the first (character) image. The art style should also match the character image." |} ] |};
            Request.config := {| Request.responseModalities := [IMAGE; TEXT] |} |}
         :: later).
Proof.
  apply (uploaded_files_reach_the_model Samples.ai AppSamples.ready
           (Samples.always (Resolved Samples.silent))
           AppSamples.character AppSamples.product);
    try reflexivity; try discriminate.
  exact ready_reachable.
Defined.

(** X21 on a failed read: a held image whose data URL is [null] makes the
    call fail before any network call. *)
Example null_data_url_makes_no_call :
  run (Samples.always (Resolved Samples.twoImages))
    (AtRuntime.generateProductPlacementImage Samples.ai
       {| Loaded.file := Samples.png; Loaded.base64Url := None |} AppSamples.product)
  = (Rejected (ErrorObj "Failed to generate image: Cannot read properties of null (reading 'split')"),
     [caughtLine (ErrorObj "Cannot read properties of null (reading 'split')")]).
Proof. reflexivity. Qed.

End AppFacts.
